(** * Frame-level models of youtube-8m-cnn: aggregation over padded frame sequences

    A shallow embedding of [frame_level_models.py].

    Conventions of the embedding.
    - A tensor of floats is a (nested) list of real numbers: a frame is a
      [list R] of [feature_size] entries, a video is the list of its
      [max_frames] frame slots, a batch is a list of videos.  An entry of a
      tensor is read with [nth] and default [0].
    - The tensors of the source hold float32 numbers.  The embedding writes
      their arithmetic with the operations of the reals, which the float32
      operations follow up to rounding as long as nothing overflows, falls
      into the subnormal range or meets a NaN.  The statements on the
      numbers of the source are therefore kept, wherever rounding could
      tell, to what does not depend on it: the 0/1 entries of the mask, the
      shapes, the errors, which slots are read, and equalities between two
      values that the source computes by the same operations.  Where a
      statement needs a tensor of the source to hold given numbers (the
      softmax outputs to be 1, a slot to be marked by the mask), this is a
      hypothesis on that tensor.  The facts of float32 arithmetic that stand
      against a claim are computed with the IEEE 754 binary32 operations of
      [SpecFloat].
    - A tensor division whose divisor can be zero is written with [vdiv],
      which returns [Err DivisionByZero] there: TensorFlow yields an
      infinity or a NaN and carries on.  [Err DivisionByZero] records that
      such a division has taken place; what the source goes on to compute
      from its result is not followed further.
    - A learned variable ([tf.Variable]) is the function from its indices to
      its entries; its shape is the one the source declares.
    - The row-wise operations of the source act on every video of the batch
      alike, so they are written for one video and mapped over the batch with
      [on_batch]; the DBoF model, whose batch normalization crosses the
      videos, is written for the batch. *)

From Stdlib Require Import String.
From Stdlib Require Import Reals Lra Lia ZArith QArith Qround Bool List Permutation.
From Stdlib Require SpecFloat.
Import ListNotations.

Local Open Scope R_scope.

(** ** Results of a fallible tensor computation *)

Inductive error : Type :=
| DivisionByZero   (* a float division by zero: inf or NaN in the source *)
| InvalidShape.    (* a shape the graph construction refuses *)

Inductive result (A : Type) : Type :=
| Ok (a : A)
| Err (e : error).

Arguments Ok {A} a.
Arguments Err {A} e.

Definition bind {A B : Type} (m : result A) (f : A -> result B) : result B :=
  match m with
  | Ok a => f a
  | Err e => Err e
  end.

Notation "x <- m ;; k" := (bind m (fun x => k))
  (at level 61, m at next level, right associativity).

Definition fmap {A B : Type} (f : A -> B) (m : result A) : result B :=
  x <- m ;; Ok (f x).

Fixpoint mapM {A B : Type} (f : A -> result B) (l : list A) : result (list B) :=
  match l with
  | [] => Ok []
  | a :: l' => b <- f a ;; bs <- mapM f l' ;; Ok (b :: bs)
  end.

(** ** Tensors *)

Definition frame := list R.
Definition video := list frame.
Definition batch := list video.

(** A computation on one video and its declared frame count, on every video
    of a batch. *)
Definition on_batch {A : Type} (f : video -> nat -> A)
  (model_input : batch) (num_frames : list nat) : list A :=
  map (fun p => f (fst p) (snd p)) (combine model_input num_frames).

(** A learned matrix [W] of shape [[n_in, n_out]] and a learned vector. *)
Definition matrix := nat -> nat -> R.
Definition vector := nat -> R.

(** [tf.reduce_sum] of a vector. *)
Definition Rsum (l : list R) : R := fold_right Rplus 0 l.

(** [tf.reduce_sum(x, axis=[1])] of one video: the sum over the frame axis,
    one entry per feature. *)
Definition reduce_sum_frames (feature_size : nat) (x : video) : list R :=
  map (fun j => Rsum (map (fun fr => nth j fr 0) x)) (seq 0 feature_size).

(** [tf.reduce_sum(tf.abs(x), axis=2)] of one video: one entry per frame slot. *)
Definition frames_sum (x : video) : list R :=
  map (fun fr => Rsum (map Rabs fr)) x.

(** [tf.where(tf.greater(frames_sum, frames_false), frames_true, frames_false)] *)
Definition frames_bool (x : video) : list R :=
  map (fun s => if Rgt_dec s 0 then 1 else 0) (frames_sum x).

(** Entrywise product of two vectors of one shape. *)
Definition vmul (a b : list R) : list R :=
  map (fun p => fst p * snd p) (combine a b).

(** [v / d] for a row [v] and the scalar [d] broadcast along it. *)
Definition vdiv (v : list R) (d : R) : result (list R) :=
  match v with
  | [] => Ok []
  | _ :: _ => if Req_dec_T d 0 then Err DivisionByZero
              else Ok (map (fun a => a / d) v)
  end.

(** [v / tf.reduce_sum(v, axis=1, keep_dims=True)] for one row. *)
Definition normalize (v : list R) : result (list R) := vdiv v (Rsum v).

(** [tf.reduce_sum(h * tf.reshape(w, [-1, max_frames, 1]), axis=1)]: the sum
    over the frame axis of the rows of [h], the row of slot [t] scaled by
    [w_t]; [width] is the static size of the last axis of [h]. *)
Definition weighted_sum (width : nat) (h : list (list R)) (w : list R) : list R :=
  map (fun j => Rsum (map (fun p => nth j (fst p) 0 * snd p) (combine h w)))
      (seq 0 width).

(** [tf.nn.xw_plus_b(x, W, b)] for one row [x] of [n_in] entries. *)
Definition xw_plus_b (n_in n_out : nat) (x : list R) (W : matrix) (b : vector)
  : list R :=
  map (fun c => Rsum (map (fun i => nth i x 0 * W i c) (seq 0 n_in)) + b c)
      (seq 0 n_out).

(** [tf.nn.softmax] of one row: along the last axis. *)
Definition softmax (row : list R) : list R :=
  map (fun z => exp z / Rsum (map exp row)) row.

Definition sigmoid (z : R) : R := 1 / (1 + exp (- z)).

(** [slim.fully_connected(x, n_out, activation_fn=act)] for one row. *)
Definition fully_connected (n_in n_out : nat) (act : R -> R)
  (W : matrix) (b : vector) (x : list R) : list R :=
  map act (xw_plus_b n_in n_out x W b).

(** [(a + b) / tf.constant(2.0)] for two rows, with the broadcasting of the
    last axis: rows of one width are added entry by entry, a row of width one
    is added to every entry of the other, and the graph construction refuses
    any other pair of widths. *)
Definition half_sum (a b : list R) : result (list R) :=
  if (length a =? length b)%nat then
    Ok (map (fun p => (fst p + snd p) / 2) (combine a b))
  else if (length a =? 1)%nat then
    Ok (map (fun v => (nth 0 a 0 + v) / 2) b)
  else if (length b =? 1)%nat then
    Ok (map (fun u => (u + nth 0 b 0) / 2) a)
  else Err InvalidShape.

(** ** FrameLevelLogisticModel *)

Module FrameLevelLogisticModel.
Section Model.
Variables feature_size vocab_size : nat.
(* weights and biases of the [slim.fully_connected] layer *)
Variables (weights : matrix) (biases : vector).

Definition avg_pooled (model_input : video) (num_frames : nat) : result (list R) :=
  vdiv (reduce_sum_frames feature_size model_input) (INR num_frames).

Definition create_model (model_input : video) (num_frames : nat)
  : result (list R) :=
  avg <- avg_pooled model_input num_frames ;;
  Ok (fully_connected feature_size vocab_size sigmoid weights biases avg).
End Model.
End FrameLevelLogisticModel.

(** ** AttentionModel *)

Module AttentionModel.
Section Model.
(* shape[2]; shape[1] is the length of the video *)
Variable feature_size : nat.
(* the variables of scope "Attention": W of shape [2*feature_size, 1], b of shape [1] *)
Variables (W : matrix) (b : vector).

Definition avg_pooled (model_input : video) (num_frames : nat) : result (list R) :=
  vdiv (reduce_sum_frames feature_size model_input) (INR num_frames).

(** One row per frame slot: the frame followed by the tiled average. *)
Definition attention_input (model_input : video) (num_frames : nat)
  : result (list (list R)) :=
  mapM (fun fr => avg <- avg_pooled model_input num_frames ;; Ok (fr ++ avg))
       model_input.

(** [tf.nn.softmax(tf.nn.xw_plus_b(attention_input, W, b))], a tensor of
    shape [[max_frames, 1]] for one video: the softmax runs along the last
    axis, of size one. *)
Definition softmax_output (model_input : video) (num_frames : nat)
  : result (list (list R)) :=
  a <- attention_input model_input num_frames ;;
  Ok (map (fun row => softmax (xw_plus_b (feature_size * 2) 1 row W b)) a).

(** [tf.reshape(output, [-1, shape[1]])], before the mask is applied. *)
Definition reshaped_output (model_input : video) (num_frames : nat)
  : result (list R) :=
  fmap (@concat R) (softmax_output model_input num_frames).

(** [output = tf.reshape(output, [-1, shape[1]]) * frames_bool] *)
Definition output (model_input : video) (num_frames : nat) : result (list R) :=
  o <- reshaped_output model_input num_frames ;;
  Ok (vmul o (frames_bool model_input)).

(** [atten = output / tf.reduce_sum(output, axis=1, keep_dims=True)] *)
Definition atten (model_input : video) (num_frames : nat) : result (list R) :=
  o <- output model_input num_frames ;; normalize o.

(** [state = tf.reduce_sum(model_input * tf.reshape(atten, [-1, shape[1], 1]), axis=1)] *)
Definition state (model_input : video) (num_frames : nat) : result (list R) :=
  a <- atten model_input num_frames ;;
  Ok (weighted_sum feature_size model_input a).

(** The video-level classifier chosen by [FLAGS.video_level_classifier_model]. *)
Variable aggregated_model : list R -> list R.

Definition create_model (model_input : video) (num_frames : nat)
  : result (list R) :=
  fmap aggregated_model (state model_input num_frames).
End Model.
End AttentionModel.

(** ** MixLogisticModel *)

Module MixLogisticModel.
Section Model.
Variables feature_size vocab_size : nat.
(* the two [slim.fully_connected] layers *)
Variables (hidden_weights : matrix) (hidden_biases : vector).
Variables (output_weights : matrix) (output_biases : vector).
Variable aggregated_model : list R -> list R.

(** Line 470 re-binds [frames_bool] to the mask divided by its sum. *)
Definition frames_bool_normalized (model_input : video) : result (list R) :=
  normalize (frames_bool model_input).

Definition hidden_of_frame (fr : frame) : list R :=
  fully_connected feature_size feature_size tanh hidden_weights hidden_biases fr.

Definition output_of_frame (fr : frame) : list R :=
  fully_connected feature_size vocab_size sigmoid output_weights output_biases
                  (hidden_of_frame fr).

Definition hidden (model_input : video) : list (list R) :=
  map hidden_of_frame model_input.

Definition frame_output (model_input : video) : list (list R) :=
  map output_of_frame model_input.

Definition videofeatures (model_input : video) : result (list R) :=
  w <- frames_bool_normalized model_input ;;
  Ok (weighted_sum feature_size (hidden model_input) w).

(** Line 483: the frame-weighted sum of the per-frame predictions. *)
Definition weighted_output (model_input : video) : result (list R) :=
  w <- frames_bool_normalized model_input ;;
  Ok (weighted_sum vocab_size (frame_output model_input) w).

(** Line 484: the same, divided by its sum over the classes. *)
Definition output (model_input : video) : result (list R) :=
  o <- weighted_output model_input ;; normalize o.

Definition create_model (model_input : video) : result (list R) :=
  vf <- videofeatures model_input ;;
  o <- output model_input ;;
  half_sum (aggregated_model vf) o.
End Model.
End MixLogisticModel.

(** ** CnnModel *)

(** The windows of [w] consecutive entries of [x], from every start at which
    one fits: the positions of a convolution with padding "VALID" and
    stride 1. *)
Fixpoint windows {A : Type} (w : nat) (x : list A) : list (list A) :=
  match x with
  | [] => []
  | a :: tl => if (w <=? S (length tl))%nat
               then firstn w (a :: tl) :: windows w tl
               else []
  end.

Module CnnModel.

Definition filter_sizes : list nat := [1; 3; 5; 10; 20]%nat.
Definition num_filters : list nat := [400; 300; 200; 100; 100]%nat.

(** The loop of lines 334..340, for the entries the active code uses. *)
Definition steps : list nat :=
  map (fun p => if (fst p =? 0)%nat then 1%nat else (snd p / 2)%nat)
      (combine (seq 0 (length filter_sizes)) filter_sizes).

(** [zip(filter_sizes, steps, num_filters)] *)
Definition filters : list (nat * nat * nat) :=
  combine (combine filter_sizes steps) num_filters.

(* The [highway] method, the block of lines 349..373 and [avg_pooled] of
   lines 378..382 take no part in what [create_model] returns. *)

Section Model.
Variable feature_size : nat.
(* The variables of scope "conv-maxpool-<filter_size>": W of shape
   [filter_size, feature_size, 1, num_filter], read as W k f c, and b. *)
Variable W : nat -> nat -> nat -> nat -> R.
Variable b : nat -> vector.

(** The entry of channel [c] at one position: the filter against the
    window [win] of [filter_size] frames. *)
Definition conv_at (filter_size : nat) (win : list frame) (c : nat) : R :=
  Rsum (map (fun k =>
               Rsum (map (fun f => nth f (nth k win []) 0 * W filter_size k f c)
                         (seq 0 feature_size)))
            (seq 0 filter_size)).

(** [tf.nn.conv2d(cnn_input, W, strides=[1,1,1,1], padding="VALID")] for
    one video, with the axis of size one dropped: a row of [num_filter]
    channels per position.  The graph construction fails when the filter
    is longer than the frame axis. *)
Definition conv (filter_size num_filter : nat) (model_input : video)
  : result (list (list R)) :=
  if ((1 <=? filter_size) && (filter_size <=? length model_input))%nat then
    Ok (map (fun win => map (conv_at filter_size win) (seq 0 num_filter))
            (windows filter_size model_input))
  else Err InvalidShape.

(** [h = tf.tanh(tf.nn.bias_add(conv, b))] *)
Definition h (filter_size num_filter : nat) (model_input : video)
  : result (list (list R)) :=
  cv <- conv filter_size num_filter model_input ;;
  Ok (map (fun row => map (fun c => tanh (nth c row 0 + b filter_size c))
                          (seq 0 num_filter)) cv).

(** Lines 406..407: the mask cut to [h_shape[1]] slots and divided by its sum. *)
Definition frame_bool (h_len : nat) (model_input : video) : result (list R) :=
  normalize (firstn h_len (frames_bool model_input)).

Definition pooled (filter_size num_filter : nat) (model_input : video)
  : result (list R) :=
  h_out <- h filter_size num_filter model_input ;;
  fb <- frame_bool (length h_out) model_input ;;
  Ok (weighted_sum num_filter h_out fb).

Definition pooled_outputs (model_input : video) : result (list (list R)) :=
  mapM (fun flt => match flt with
                   | (filter_size, _, num_filter) =>
                       pooled filter_size num_filter model_input
                   end) filters.

(** [h_pool = tf.concat(pooled_outputs, 1)], which is [h_drop]. *)
Definition h_drop (model_input : video) : result (list R) :=
  fmap (@concat R) (pooled_outputs model_input).

Variable aggregated_model : list R -> list R.

Definition create_model (model_input : video) : result (list R) :=
  fmap aggregated_model (h_drop model_input).
End Model.
End CnnModel.

(** ** Flags and Python values *)

Record flags : Type := {
  iterations : Z;
  dbof_add_batch_norm : bool;
  sample_random_frames : bool;
  dbof_cluster_size : Z;
  dbof_hidden_size : Z;
  dbof_pooling_method : string;
  video_level_classifier_model : string;
  lstm_cells : Z;
  lstm_layers : Z
}.

(** The defaults of the [flags.DEFINE_*] calls. *)
Definition default_flags : flags := {|
  iterations := 30;
  dbof_add_batch_norm := true;
  sample_random_frames := true;
  dbof_cluster_size := 8192;
  dbof_hidden_size := 1024;
  dbof_pooling_method := "max";
  video_level_classifier_model := "MoeModel";
  lstm_cells := 1024;
  lstm_layers := 2
|}.

(** The values an optional argument of [DbofModel.create_model] takes. *)
Inductive pyval : Type :=
| PyNone
| PyBool (b : bool)
| PyInt (z : Z).

(** Python's truth value testing. *)
Definition truthy (v : pyval) : bool :=
  match v with
  | PyNone => false
  | PyBool b => b
  | PyInt z => negb (z =? 0)%Z
  end.

(** Python's [a or b]. *)
Definition py_or (a b : pyval) : pyval := if truthy a then a else b.

(** The number a value stands for where the source uses it as one. *)
Definition py_int (v : pyval) : Z :=
  match v with
  | PyInt z => z
  | PyBool true => 1
  | _ => 0
  end.

(** ** LstmModel *)

Module LstmModel.
Section Model.
Variable FLAGS : flags.
(* One step of the MultiRNNCell of BasicLSTMCells (state_is_tuple=False)
   with its variables: from the concatenated state and a frame to the next
   concatenated state. *)
Variable stacked_lstm : list R -> frame -> list R.
Variable aggregated_model : list R -> list R.

Definition state_size : nat :=
  (2 * Z.to_nat (lstm_cells FLAGS) * Z.to_nat (lstm_layers FLAGS))%nat.

(** [tf.nn.dynamic_rnn(cell, inputs, sequence_length=...)]: the state is
    stepped on the slots before [sequence_length] and copied through on
    the others; [t] is the slot of the head of [inputs]. *)
Fixpoint dynamic_rnn_from (t : nat) (inputs : video) (sequence_length : nat)
  (st : list R) : list R :=
  match inputs with
  | [] => st
  | fr :: tl =>
      dynamic_rnn_from (S t) tl sequence_length
        (if (t <? sequence_length)%nat then stacked_lstm st fr else st)
  end.

Definition state (model_input : video) (num_frames : nat) : list R :=
  dynamic_rnn_from 0 model_input num_frames (repeat 0 state_size).

Definition create_model (model_input : video) (num_frames : nat) : list R :=
  aggregated_model (state model_input num_frames).
End Model.
End LstmModel.

(** ** model_utils *)

Module utils.

(** Modelled from the spec: [model_utils.py], which holds the sampling and
    pooling utilities, is not among the sources.  A draw "uniformly from
    [0, n)" is the integer part of [u * n] for a variate [u] of [0, 1). *)
Definition uniform_index (u : Q) (n : nat) : nat :=
  Z.to_nat (Qfloor (u * inject_Z (Z.of_nat n))).

(** Modelled from the spec: independent sampling, "draw k frame indices
    independently and uniformly from [0, frame_count) with replacement". *)
Definition SampleRandomFrames_index (u : nat -> Q) (num_frames num_samples : nat)
  : list nat :=
  map (fun j => uniform_index (u j) num_frames) (seq 0 num_samples).

(** Modelled from the spec: contiguous sampling, "draw one start offset
    uniformly from [0, frame_count - k] (or 0 if frame_count <= k) and take
    the contiguous block of k frames", never reading "beyond index
    frame_count-1" and returning "exactly k frames per video (pad/repeat
    if frame_count < k)": the last frame is repeated. *)
Definition SampleRandomSequence_index (u : Q) (num_frames num_samples : nat)
  : list nat :=
  let start := uniform_index u (num_frames - num_samples + 1) in
  map (fun j => Nat.min (start + j) (num_frames - 1)) (seq 0 num_samples).

(** Reading the frames at the given indices ([tf.gather_nd]). *)
Definition gather (model_input : video) (index : list nat) : result video :=
  mapM (fun i => match nth_error model_input i with
                 | Some fr => Ok fr
                 | None => Err InvalidShape
                 end) index.

Definition SampleRandomFrames (u : nat -> Q) (model_input : video)
  (num_frames num_samples : nat) : result video :=
  gather model_input (SampleRandomFrames_index u num_frames num_samples).

Definition SampleRandomSequence (u : Q) (model_input : video)
  (num_frames num_samples : nat) : result video :=
  gather model_input (SampleRandomSequence_index u num_frames num_samples).

(** Modelled from the spec: "pool across the frame axis per cluster
    dimension using either max or average (a configuration option)". *)
Definition FramePooling (width : nat) (frames : list (list R)) (method : string)
  : result (list R) :=
  if String.eqb method "average" then
    vdiv (reduce_sum_frames width frames) (INR (length frames))
  else if String.eqb method "max" then
    match frames with
    | [] => Err InvalidShape
    | fr :: tl =>
        Ok (map (fun j => fold_right Rmax (nth j fr 0)
                                     (map (fun r => nth j r 0) tl))
                (seq 0 width))
    end
  else Err InvalidShape.

End utils.

(** ** DbofModel *)

(** What a [tf.random_normal(shape, stddev=...)] initial value is drawn from. *)
Record random_normal : Type := {
  shape : list nat;
  mean : R;
  stddev : R
}.

Module DbofModel.

(** The optional arguments of [create_model]. *)
Record arguments : Type := {
  arg_iterations : pyval;
  arg_add_batch_norm : pyval;
  arg_sample_random_frames : pyval;
  arg_cluster_size : pyval;
  arg_hidden_size : pyval;
  arg_is_training : bool
}.

(** The defaults of the signature. *)
Definition no_arguments : arguments := {|
  arg_iterations := PyNone;
  arg_add_batch_norm := PyNone;
  arg_sample_random_frames := PyNone;
  arg_cluster_size := PyNone;
  arg_hidden_size := PyNone;
  arg_is_training := true
|}.

(** The local variables bound by lines 120..124. *)
Record locals : Type := {
  l_iterations : pyval;
  l_add_batch_norm : pyval;
  l_random_frames : pyval;
  l_cluster_size : pyval;
  l_hidden1_size : pyval
}.

Definition bind_locals (FLAGS : flags) (a : arguments) : locals := {|
  l_iterations := py_or (arg_iterations a) (PyInt (iterations FLAGS));
  l_add_batch_norm :=
    py_or (arg_add_batch_norm a) (PyBool (dbof_add_batch_norm FLAGS));
  l_random_frames :=
    py_or (arg_sample_random_frames a) (PyBool (sample_random_frames FLAGS));
  l_cluster_size := py_or (arg_cluster_size a) (PyInt (dbof_cluster_size FLAGS));
  l_hidden1_size := py_or (arg_hidden_size a) (PyInt (dbof_hidden_size FLAGS))
|}.

(** The [tf.Variable]s the model creates itself, with the distribution of
    their initial values, in the order of creation. *)
Definition variables (feature_size cluster_size hidden1_size : nat)
  (add_batch_norm : bool) : list (string * random_normal) :=
  [("cluster_weights"%string,
    {| shape := [feature_size; cluster_size]; mean := 0;
       stddev := 1 / sqrt (INR feature_size) |})]
  ++ (if add_batch_norm then []
      else [("cluster_biases"%string,
             {| shape := [cluster_size]; mean := 0;
                stddev := 1 / sqrt (INR feature_size) |})])
  ++ [("hidden1_weights"%string,
       {| shape := [cluster_size; hidden1_size]; mean := 0;
          stddev := 1 / sqrt (INR cluster_size) |})]
  ++ (if add_batch_norm then []
      else [("hidden1_biases"%string,
             {| shape := [hidden1_size]; mean := 0; stddev := 0.01 |})]).

Definition relu6 (z : R) : R := Rmin (Rmax z 0) 6.

(** [tf.matmul] for one row. *)
Definition matmul (n_in n_out : nat) (x : list R) (W : matrix) : list R :=
  map (fun c => Rsum (map (fun i => nth i x 0 * W i c) (seq 0 n_in)))
      (seq 0 n_out).

(** [activation += biases] for one row. *)
Definition add_biases (n : nat) (row : list R) (biases : vector) : list R :=
  map (fun c => nth c row 0 + biases c) (seq 0 n).

(** [tf.reshape(rows, [-1, max_frames, width])]: the rows of each video. *)
Definition reshape_videos {A : Type} (batch_size max_frames : nat)
  (rows : list A) : list (list A) :=
  map (fun i => firstn max_frames (skipn (i * max_frames) rows))
      (seq 0 batch_size).

Section Model.
Variable FLAGS : flags.
Variable feature_size : nat.
(* [slim.batch_norm] with the variables of its scope, on the rows of a
   matrix: scope, is_training, input *)
Variable batch_norm : string -> bool -> list (list R) -> list (list R).
Variables (cluster_weights : matrix) (cluster_biases : vector).
Variables (hidden1_weights : matrix) (hidden1_biases : vector).
Variable aggregated_model : list R -> list R.
(* the variates of [0, 1) behind the random draws: per video and sample
   for the independent sampling, per video for the contiguous one *)
Variable u_frames : nat -> nat -> Q.
Variable u_sequence : nat -> Q.

(** Lines 127..132 for the video of index [i] of the batch. *)
Definition sample (l : locals) (i : nat) (model_input : video)
  (num_frames : nat) : result video :=
  let k := Z.to_nat (py_int (l_iterations l)) in
  if truthy (l_random_frames l)
  then utils.SampleRandomFrames (u_frames i) model_input num_frames k
  else utils.SampleRandomSequence (u_sequence i) model_input num_frames k.

Definition sample_batch (l : locals) (model_input : batch)
  (num_frames : list nat) : result batch :=
  mapM (fun p => match p with
                 | (i, x, n) => sample l i x n
                 end)
       (combine (combine (seq 0 (length model_input)) model_input) num_frames).

(** Lines 133..189, from the sampled batch to the input of the classifier. *)
Definition activation (l : locals) (is_training : bool) (sampled : batch)
  : result (list (list R)) :=
  let max_frames := Z.to_nat (py_int (l_iterations l)) in
  let cluster_size := Z.to_nat (py_int (l_cluster_size l)) in
  let hidden1_size := Z.to_nat (py_int (l_hidden1_size l)) in
  let add_batch_norm := truthy (l_add_batch_norm l) in
  let reshaped_input := concat sampled in
  let reshaped_input :=
    if add_batch_norm then batch_norm "input_bn" is_training reshaped_input
    else reshaped_input in
  let act :=
    map (fun row => matmul feature_size cluster_size row cluster_weights)
        reshaped_input in
  let act :=
    if add_batch_norm then batch_norm "cluster_bn" is_training act
    else map (fun row => add_biases cluster_size row cluster_biases) act in
  let act := map (map relu6) act in
  let act := reshape_videos (length sampled) max_frames act in
  act <- mapM (fun v => utils.FramePooling cluster_size v
                          (dbof_pooling_method FLAGS)) act ;;
  let act :=
    map (fun row => matmul cluster_size hidden1_size row hidden1_weights) act in
  let act :=
    if add_batch_norm then batch_norm "hidden1_bn" is_training act
    else map (fun row => add_biases hidden1_size row hidden1_biases) act in
  Ok (map (map relu6) act).

Definition create_model (a : arguments) (model_input : batch)
  (num_frames : list nat) : result (list (list R)) :=
  let l := bind_locals FLAGS a in
  sampled <- sample_batch l model_input num_frames ;;
  act <- activation l (arg_is_training a) sampled ;;
  Ok (map aggregated_model act).

(** The variables created along the way. *)
Definition created_variables (a : arguments) : list (string * random_normal) :=
  let l := bind_locals FLAGS a in
  variables feature_size
            (Z.to_nat (py_int (l_cluster_size l)))
            (Z.to_nat (py_int (l_hidden1_size l)))
            (truthy (l_add_batch_norm l)).
End Model.
End DbofModel.

(** ** Notions the statements use *)

(** A frame slot is active when the absolute values of its features do not
    sum to zero. *)
Definition active (fr : frame) : Prop := Rsum (map Rabs fr) <> 0.

(** The entry of [frames_bool] for one frame slot. *)
Definition mask_of (fr : frame) : R :=
  if Rgt_dec (Rsum (map Rabs fr)) 0 then 1 else 0.

Definition is_active (fr : frame) : bool :=
  if Rgt_dec (Rsum (map Rabs fr)) 0 then true else false.

(** The unweighted mean of the active frames of a video, per feature. *)
Definition mean_active (feature_size : nat) (x : video) : result (list R) :=
  vdiv (reduce_sum_frames feature_size (filter is_active x))
       (INR (length (filter is_active x))).

(** [x'] is [x] with the slots from [num_frames] on, the padding region,
    permuted. *)
Definition padding_permuted (num_frames : nat) (x x' : video) : Prop :=
  firstn num_frames x = firstn num_frames x'
  /\ Permutation (skipn num_frames x) (skipn num_frames x').

(** The same for every video of a batch and its declared frame count. *)
Inductive batch_padding_permuted : list nat -> batch -> batch -> Prop :=
| bpp_nil : batch_padding_permuted [] [] []
| bpp_cons n x x' N X X' :
    padding_permuted n x x' ->
    batch_padding_permuted N X X' ->
    batch_padding_permuted (n :: N) (x :: X) (x' :: X').

(** The attention aggregator as the specification words it: one logit per
    augmented frame, "a softmax across the frame axis", the mask, the
    renormalization, the weighted sum of the original frames. *)
Module AttentionSpec.
Section Model.
Variable feature_size : nat.
Variables (W : matrix) (b : vector).

Definition logits (model_input : video) (num_frames : nat) : result (list R) :=
  a <- AttentionModel.attention_input feature_size model_input num_frames ;;
  Ok (map (fun row => nth 0 (xw_plus_b (feature_size * 2) 1 row W b) 0) a).

Definition atten (model_input : video) (num_frames : nat) : result (list R) :=
  l <- logits model_input num_frames ;;
  normalize (vmul (softmax l) (frames_bool model_input)).

Definition state (model_input : video) (num_frames : nat) : result (list R) :=
  a <- atten model_input num_frames ;;
  Ok (weighted_sum feature_size model_input a).
End Model.
End AttentionSpec.

(** The standard deviation of the initial value of the variable [name]. *)
Definition initial_stddev (vars : list (string * random_normal)) (name : string)
  : option R :=
  option_map (fun p => stddev (snd p))
             (find (fun p => String.eqb (fst p) name) vars).

(** The default flags with [--dbof_add_batch_norm=False]. *)
Definition flags_without_batch_norm : flags := {|
  iterations := iterations default_flags;
  dbof_add_batch_norm := false;
  sample_random_frames := sample_random_frames default_flags;
  dbof_cluster_size := dbof_cluster_size default_flags;
  dbof_hidden_size := dbof_hidden_size default_flags;
  dbof_pooling_method := dbof_pooling_method default_flags;
  video_level_classifier_model := video_level_classifier_model default_flags;
  lstm_cells := lstm_cells default_flags;
  lstm_layers := lstm_layers default_flags
|}.

(** The video used against C8: nineteen zero frames, then a frame [1]. *)
Definition late_video : video := repeat [0] 19 ++ [[1]].

(** The inputs used against C4: one declared frame [1], then a padding
    region that holds a frame [1] among zero frames, at slot 1 or at slot 2;
    and a filter bank whose filter of width 3 reads, in channel 0, the
    feature of the middle frame of its window. *)
Definition padded_video : video := [[1]; [1]; [0]] ++ repeat [0] 17.
Definition padded_video_permuted : video := [[1]; [0]; [1]] ++ repeat [0] 17.
Definition middle_frame_filter : nat -> nat -> nat -> nat -> R :=
  fun filter_size k f c =>
    if ((filter_size =? 3) && (k =? 1) && (f =? 0) && (c =? 0))%nat
    then 1 else 0.

(** ** CnnModel.highway *)

(** [tf.nn.relu] *)
Definition relu (z : R) : R := Rmax z 0.

(** Entrywise sum of two vectors of one shape. *)
Definition vadd (a b : list R) : list R :=
  map (fun p => fst p + snd p) (combine a b).

(** [tf.nn.xw_plus_b(x, W, b)] with the check of the graph construction that
    the row [x] has the [n_in] entries the matrix multiplies. *)
Definition xw_plus_b_checked (n_in n_out : nat) (x : list R) (W : matrix)
  (b : vector) : result (list R) :=
  if (length x =? n_in)%nat then Ok (xw_plus_b n_in n_out x W b)
  else Err InvalidShape.

Module Highway.
Section Model.
(* The variables of the scopes "output_lin_<idx>" and "transform_lin_<idx>":
   W of shape [size_2, size_1] and [size_1, size_1], b of shape [size_1]. *)
Variables (output_W : nat -> matrix) (output_b : nat -> vector).
Variables (transform_W : nat -> matrix) (transform_b : nat -> vector).

(** The candidate of layer [idx]: [tf.nn.relu(tf.nn.xw_plus_b(output, W, b))]. *)
Definition candidate (idx size_1 size_2 : nat) (output : list R)
  : result (list R) :=
  lin <- xw_plus_b_checked size_2 size_1 output (output_W idx) (output_b idx) ;;
  Ok (map relu lin).

(** [transform_gate = tf.sigmoid(tf.nn.xw_plus_b(input_1, W, b))] *)
Definition transform_gate (idx size_1 : nat) (input_1 : list R)
  : result (list R) :=
  lin <- xw_plus_b_checked size_1 size_1 input_1
           (transform_W idx) (transform_b idx) ;;
  Ok (map sigmoid lin).

(** One turn of the loop of lines 298..309. *)
Definition layer (idx size_1 size_2 : nat) (input_1 output : list R)
  : result (list R) :=
  output <- candidate idx size_1 size_2 output ;;
  gate <- transform_gate idx size_1 input_1 ;;
  let carry_gate := map (fun t => 1 - t) gate in
  Ok (vadd (vmul gate output) (vmul carry_gate input_1)).

(** The loop over [idxs], which is [range(layer_size)]. *)
Fixpoint layers (idxs : list nat) (size_1 size_2 : nat)
  (input_1 output : list R) : result (list R) :=
  match idxs with
  | [] => Ok output
  | idx :: rest =>
      output <- layer idx size_1 size_2 input_1 output ;;
      layers rest size_1 size_2 input_1 output
  end.

Definition highway (input_1 input_2 : list R) (size_1 size_2 layer_size : nat)
  : result (list R) :=
  layers (seq 0 layer_size) size_1 size_2 input_1 input_2.
End Model.
End Highway.

(** ** float32 *)

(** The smallest positive normal float32 number, [2^-126].  The kernels of
    the source may flush to zero the subnormal numbers below it, so a sum of
    absolute values is certain to test greater than zero only from here on. *)
Definition float32_min_normal : R := / 2 ^ 126.

(** A frame with a feature of absolute value [2^-126] or more. *)
Definition has_normal_feature (fr : frame) : Prop :=
  Exists (fun a => float32_min_normal <= Rabs a) fr.

(** What a 0/1 mask divided by its sum holds: [1 / sum] at the slots the
    mask marks and [0] at the others. *)
Definition mask_weights (mask : list R) : list R :=
  map (fun m => if Req_dec_T m 0 then 0 else 1 / Rsum mask) mask.

(** IEEE 754 binary32, the arithmetic of [tf.float32]: 24 bits of precision,
    exponents below 128, rounding to nearest even. *)
Definition float32 : Type := SpecFloat.spec_float.

(** The float32 nearest to [m * 2^e]. *)
Definition float32_of (m e : Z) : float32 :=
  SpecFloat.binary_normalize 24%Z 128%Z m e false.

Definition float32_add : float32 -> float32 -> float32 :=
  SpecFloat.SFadd 24%Z 128%Z.
Definition float32_div : float32 -> float32 -> float32 :=
  SpecFloat.SFdiv 24%Z 128%Z.

(** A float32 sum over an axis, the summands taken from the first or from
    the last: [tf.reduce_sum] leaves the order to the kernel. *)
Definition float32_sum_left (l : list float32) : float32 :=
  fold_left float32_add l (float32_of 0 0).
Definition float32_sum_right (l : list float32) : float32 :=
  fold_right float32_add (float32_of 0 0) l.

(** [tf.reduce_sum(tf.abs(x), axis=2)] at one frame slot, in float32. *)
Definition float32_frames_sum (fr : list float32) : float32 :=
  float32_sum_left (map SpecFloat.SFabs fr).

(** A float32 number other than zero below the normal range. *)
Definition float32_subnormal (a : float32) : Prop :=
  SpecFloat.SFclassify 24%Z a = FloatClass.PSubn
  \/ SpecFloat.SFclassify 24%Z a = FloatClass.NSubn.

(** * Properties *)

(** ** Sums *)

Lemma Rsum_cons (a : R) (l : list R) : Rsum (a :: l) = a + Rsum l.
Proof. reflexivity. Qed.

Lemma Rsum_app (l1 l2 : list R) : Rsum (l1 ++ l2) = Rsum l1 + Rsum l2.
Proof.
  induction l1 as [|a l1 IH]; simpl.
  - lra.
  - rewrite IH. lra.
Qed.

Lemma Rsum_scale (d : R) (l : list R) :
  Rsum (map (fun a => a / d) l) = Rsum l / d.
Proof.
  induction l as [|a l IH]; simpl.
  - lra.
  - rewrite IH. lra.
Qed.

Lemma Rsum_repeat (a : R) (n : nat) : Rsum (repeat a n) = INR n * a.
Proof.
  induction n as [|n IH].
  - simpl. lra.
  - rewrite S_INR. simpl. rewrite IH. lra.
Qed.

Lemma Rsum_nonneg (l : list R) : Forall (fun a => 0 <= a) l -> 0 <= Rsum l.
Proof.
  induction 1; simpl; lra.
Qed.

Lemma Rsum_abs_nonneg (fr : frame) : 0 <= Rsum (map Rabs fr).
Proof.
  apply Rsum_nonneg, Forall_forall. intros a Ha.
  apply in_map_iff in Ha. destruct Ha as [c [<- _]]. apply Rabs_pos.
Qed.

(** ** The mask *)

Lemma frames_bool_map (x : video) : frames_bool x = map mask_of x.
Proof.
  unfold frames_bool, frames_sum. rewrite map_map. reflexivity.
Qed.

Lemma mask_of_active (fr : frame) : active fr -> mask_of fr = 1.
Proof.
  unfold active, mask_of. intros H. pose proof (Rsum_abs_nonneg fr).
  destruct (Rgt_dec _ 0); [reflexivity | lra].
Qed.

Lemma mask_of_inactive (fr : frame) : ~ active fr -> mask_of fr = 0.
Proof.
  unfold active, mask_of. intros H.
  destruct (Rgt_dec _ 0); [exfalso; apply H; lra | reflexivity].
Qed.

Lemma active_dec (fr : frame) : {active fr} + {~ active fr}.
Proof.
  unfold active. destruct (Req_dec_T (Rsum (map Rabs fr)) 0); [right | left]; lra.
Qed.

Lemma mask_of_01 (fr : frame) : mask_of fr = 0 \/ mask_of fr = 1.
Proof.
  destruct (active_dec fr).
  - right. now apply mask_of_active.
  - left. now apply mask_of_inactive.
Qed.

Lemma length_frames_bool (x : video) : length (frames_bool x) = length x.
Proof. rewrite frames_bool_map. apply length_map. Qed.

Lemma Rsum_mask_nonneg (x : video) : 0 <= Rsum (map mask_of x).
Proof.
  apply Rsum_nonneg, Forall_forall. intros a Ha.
  apply in_map_iff in Ha. destruct Ha as [fr [<- _]].
  destruct (mask_of_01 fr) as [-> | ->]; lra.
Qed.

Lemma Rsum_mask_pos (x : video) : Exists active x -> 0 < Rsum (map mask_of x).
Proof.
  induction 1 as [fr x H | fr x H IH]; simpl.
  - rewrite (mask_of_active _ H). pose proof (Rsum_mask_nonneg x). lra.
  - destruct (mask_of_01 fr) as [-> | ->]; lra.
Qed.

Lemma Rsum_mask_zero (x : video) : ~ Exists active x -> Rsum (map mask_of x) = 0.
Proof.
  induction x as [|fr x IH]; intros H; simpl.
  - reflexivity.
  - rewrite mask_of_inactive, IH; [lra | |].
    + intros E. apply H. now apply Exists_cons_tl.
    + intros E. apply H. now apply Exists_cons_hd.
Qed.

Lemma firstn_frames_bool (n : nat) (x : video) :
  firstn n (frames_bool x) = frames_bool (firstn n x).
Proof. rewrite !frames_bool_map. apply firstn_map. Qed.

Lemma Rsum_abs_of_zeros (fr : frame) :
  Forall (fun a => a = 0) fr -> Rsum (map Rabs fr) = 0.
Proof.
  induction 1 as [|a fr Ha _ IH]; [reflexivity|].
  cbn [map]. rewrite Rsum_cons, IH, Ha, Rabs_R0. lra.
Qed.

Lemma float32_min_normal_pos : 0 < float32_min_normal.
Proof. unfold float32_min_normal. apply Rinv_0_lt_compat, pow_lt. lra. Qed.

Lemma float32_min_normal_le_1 : float32_min_normal <= 1.
Proof.
  unfold float32_min_normal. rewrite <- Rinv_1.
  apply Rinv_le_contravar; [lra | apply pow_R1_Rle; lra].
Qed.

Lemma Rsum_abs_ge (fr : frame) (a : R) :
  In a fr -> Rabs a <= Rsum (map Rabs fr).
Proof.
  induction fr as [|c fr IH]; intros H; [contradiction|].
  cbn [map]. rewrite Rsum_cons.
  pose proof (Rsum_abs_nonneg fr). pose proof (Rabs_pos c).
  destruct H as [-> | H]; [lra | specialize (IH H); lra].
Qed.

(** A slot that holds a feature of absolute value [2^-126] or more is marked;
    a slot of zeros is not. *)
Lemma mask_of_normal_feature (fr : frame) :
  has_normal_feature fr -> mask_of fr = 1.
Proof.
  intros H. apply Exists_exists in H. destruct H as [a [Hin Ha]].
  apply mask_of_active. unfold active.
  pose proof (Rsum_abs_ge fr a Hin). pose proof float32_min_normal_pos. lra.
Qed.

Lemma mask_of_zero_frame (fr : frame) :
  Forall (fun a => a = 0) fr -> mask_of fr = 0.
Proof.
  intros H. apply mask_of_inactive. intros Ha. apply Ha.
  now apply Rsum_abs_of_zeros.
Qed.

Lemma mask_of_1_iff (fr : frame) : mask_of fr = 1 <-> active fr.
Proof.
  split; [|apply mask_of_active].
  intros H. destruct (active_dec fr) as [Ha|Ha]; [exact Ha|].
  rewrite (mask_of_inactive fr Ha) in H. lra.
Qed.

Lemma In_mask_iff (x : video) : In 1 (frames_bool x) <-> Exists active x.
Proof.
  rewrite frames_bool_map, in_map_iff, Exists_exists. split.
  - intros [fr [Hm Hin]]. exists fr. split; [exact Hin | now apply mask_of_1_iff].
  - intros [fr [Hin Ha]]. exists fr. split; [now apply mask_of_active | exact Hin].
Qed.

Lemma In_mask_normal_feature (x : video) :
  Exists has_normal_feature x -> In 1 (frames_bool x).
Proof.
  intros H. apply Exists_exists in H. destruct H as [fr [Hin Hf]].
  rewrite frames_bool_map. apply in_map_iff. exists fr.
  split; [now apply mask_of_normal_feature | exact Hin].
Qed.

(** ** Division of a row *)

Lemma vdiv_ok (v : list R) (d : R) :
  d <> 0 -> vdiv v d = Ok (map (fun a => a / d) v).
Proof.
  intros Hd. destruct v as [|a v]; [reflexivity|].
  unfold vdiv. destruct (Req_dec_T d 0); [contradiction | reflexivity].
Qed.

Lemma vdiv_zero (v : list R) : v <> [] -> vdiv v 0 = Err DivisionByZero.
Proof.
  intros Hv. destruct v as [|a v]; [contradiction|].
  unfold vdiv. destruct (Req_dec_T 0 0); [reflexivity | lra].
Qed.

Lemma normalize_ok (v : list R) :
  Rsum v <> 0 ->
  normalize v = Ok (map (fun a => a / Rsum v) v)
  /\ Rsum (map (fun a => a / Rsum v) v) = 1.
Proof.
  intros H. split.
  - now apply vdiv_ok.
  - rewrite Rsum_scale. now field.
Qed.

Lemma nth_map_of_nth_error {A : Type} (f : A -> R) (l : list A) (t : nat) (a : A) :
  nth_error l t = Some a -> nth t (map f l) 0 = f a.
Proof.
  revert t. induction l as [|c l IH]; intros [|t] H; simpl in *; try discriminate.
  - now inversion H.
  - now apply IH.
Qed.

Lemma normalize_mask_ok (x : video) :
  Exists active x ->
  exists w, normalize (frames_bool x) = Ok w
            /\ w = map (fun m => m / Rsum (frames_bool x)) (frames_bool x)
            /\ Rsum w = 1.
Proof.
  intros H. pose proof (Rsum_mask_pos x H) as Hpos.
  rewrite <- frames_bool_map in Hpos.
  destruct (normalize_ok (frames_bool x)) as [E S]; [lra|].
  eexists. split; [exact E|]. split; [reflexivity | exact S].
Qed.

Lemma normalize_mask_err (x : video) :
  x <> [] -> ~ Exists active x -> normalize (frames_bool x) = Err DivisionByZero.
Proof.
  intros Hx H. unfold normalize. rewrite frames_bool_map.
  rewrite (Rsum_mask_zero x H). apply vdiv_zero.
  destruct x; [contradiction | discriminate].
Qed.

Lemma mask_weights_entry (s m : R) :
  m = 0 \/ m = 1 -> m / s = if Req_dec_T m 0 then 0 else 1 / s.
Proof.
  intros [-> | ->]; destruct (Req_dec_T _ 0) as [E|E].
  - unfold Rdiv. ring.
  - exfalso. now apply E.
  - exfalso. lra.
  - reflexivity.
Qed.

(** The mask of a video with a marked slot has a nonzero sum, and divided by
    it gives [1 / sum] at the marked slots and [0] at the others. *)
Lemma normalize_mask_weights (x : video) :
  In 1 (frames_bool x) ->
  Rsum (frames_bool x) <> 0
  /\ normalize (frames_bool x)
     = Ok (map (fun m => m / Rsum (frames_bool x)) (frames_bool x))
  /\ normalize (frames_bool x) = Ok (mask_weights (frames_bool x)).
Proof.
  intros H. apply In_mask_iff in H.
  assert (Hs : Rsum (frames_bool x) <> 0).
  { rewrite frames_bool_map. pose proof (Rsum_mask_pos x H). lra. }
  split; [exact Hs|]. unfold normalize. rewrite vdiv_ok by exact Hs.
  split; [reflexivity|].
  f_equal. unfold mask_weights. apply map_ext_in. intros m Hm.
  apply mask_weights_entry. rewrite frames_bool_map in Hm.
  apply in_map_iff in Hm. destruct Hm as [fr [<- _]]. apply mask_of_01.
Qed.

Lemma normalize_mask_unmarked (x : video) :
  x <> [] -> ~ In 1 (frames_bool x) ->
  Rsum (frames_bool x) = 0
  /\ normalize (frames_bool x) = Err DivisionByZero.
Proof.
  intros Hx H.
  assert (Ha : ~ Exists active x) by (intros E; now apply H, In_mask_iff).
  split; [|now apply normalize_mask_err].
  rewrite frames_bool_map. now apply Rsum_mask_zero.
Qed.

(** ** mapM *)

Lemma mapM_ok {A B : Type} (f : A -> result B) (g : A -> B) (l : list A) :
  (forall a, In a l -> f a = Ok (g a)) -> mapM f l = Ok (map g l).
Proof.
  induction l as [|a l IH]; intros H; simpl.
  - reflexivity.
  - rewrite (H a (or_introl eq_refl)). simpl.
    rewrite IH; [reflexivity|]. intros c Hc. apply H. now right.
Qed.

Lemma mapM_ext {A B : Type} (f g : A -> result B) (l : list A) :
  (forall a, In a l -> f a = g a) -> mapM f l = mapM g l.
Proof.
  induction l as [|a l IH]; intros H; simpl.
  - reflexivity.
  - rewrite (H a (or_introl eq_refl)), IH; [reflexivity|].
    intros c Hc. apply H. now right.
Qed.

Lemma mapM_length {A B : Type} (f : A -> result B) (l : list A) (r : list B) :
  mapM f l = Ok r -> length r = length l.
Proof.
  revert r. induction l as [|a l IH]; intros r; simpl.
  - intros H. now inversion H.
  - destruct (f a); simpl; [|discriminate].
    destruct (mapM f l); simpl; [|discriminate].
    intros H. inversion H. simpl. f_equal. now apply IH.
Qed.

(** ** The attention weights *)

Lemma softmax_singleton (z : R) : softmax [z] = [1].
Proof.
  unfold softmax. simpl. f_equal. pose proof (exp_pos z). field. lra.
Qed.

Lemma xw_plus_b_scalar (n_in : nat) (W : matrix) (b : vector) (row : list R) :
  xw_plus_b n_in 1 row W b
  = [Rsum (map (fun i => nth i row 0 * W i 0%nat) (seq 0 n_in)) + b 0%nat].
Proof. reflexivity. Qed.

Lemma softmax_rows_singleton (n_in : nat) (W : matrix) (b : vector)
  (a : list (list R)) :
  concat (map (fun row => softmax (xw_plus_b n_in 1 row W b)) a)
  = repeat 1 (length a).
Proof.
  induction a as [|row a IH]; [reflexivity|].
  cbn [map concat length repeat].
  rewrite xw_plus_b_scalar, softmax_singleton, IH. reflexivity.
Qed.

Lemma vmul_ones (m : list R) : vmul (repeat 1 (length m)) m = m.
Proof.
  unfold vmul. induction m as [|a m IH]; simpl.
  - reflexivity.
  - rewrite IH. f_equal. lra.
Qed.

Section AttentionFacts.
Variable feature_size : nat.
Variables (W : matrix) (b : vector).

Lemma attention_input_length (x : video) (n : nat) (a : list (list R)) :
  AttentionModel.attention_input feature_size x n = Ok a -> length a = length x.
Proof. apply mapM_length. Qed.

Lemma attention_input_ok (x : video) (n : nat) :
  n <> 0%nat ->
  exists a, AttentionModel.attention_input feature_size x n = Ok a.
Proof.
  intros Hn. unfold AttentionModel.attention_input, AttentionModel.avg_pooled.
  rewrite vdiv_ok by (now apply not_0_INR).
  exists (map (fun fr => fr ++ map (fun a => a / INR n)
                                 (reduce_sum_frames feature_size x)) x).
  now apply mapM_ok.
Qed.

Lemma reshaped_output_ones (x : video) (n : nat) :
  AttentionModel.reshaped_output feature_size W b x n
  = (_ <- AttentionModel.attention_input feature_size x n ;;
     Ok (repeat 1 (length x))).
Proof.
  unfold AttentionModel.reshaped_output, AttentionModel.softmax_output, fmap.
  destruct (AttentionModel.attention_input feature_size x n) as [a|e] eqn:E;
    simpl; [|reflexivity].
  rewrite softmax_rows_singleton. now rewrite (attention_input_length _ _ _ E).
Qed.

Lemma atten_is_normalized_mask (x : video) (n : nat) :
  AttentionModel.atten feature_size W b x n
  = (_ <- AttentionModel.attention_input feature_size x n ;;
     normalize (frames_bool x)).
Proof.
  unfold AttentionModel.atten, AttentionModel.output.
  rewrite reshaped_output_ones.
  destruct (AttentionModel.attention_input feature_size x n); simpl;
    [|reflexivity].
  rewrite <- (length_frames_bool x). now rewrite vmul_ones.
Qed.

Lemma state_unfold (x : video) (n : nat) :
  AttentionModel.state feature_size W b x n
  = (_ <- AttentionModel.attention_input feature_size x n ;;
     a <- normalize (frames_bool x) ;;
     Ok (weighted_sum feature_size x a)).
Proof.
  unfold AttentionModel.state. rewrite atten_is_normalized_mask.
  now destruct (AttentionModel.attention_input feature_size x n).
Qed.


(** Once the weights before the mask are all 1, what follows them is the
    mask, its normalization and the pooling under it. *)
Lemma attention_of_unit_weights (x : video) (n : nat) :
  AttentionModel.reshaped_output feature_size W b x n
  = Ok (repeat 1 (length x)) ->
  AttentionModel.output feature_size W b x n = Ok (frames_bool x)
  /\ AttentionModel.atten feature_size W b x n = normalize (frames_bool x)
  /\ AttentionModel.state feature_size W b x n
     = (a <- normalize (frames_bool x) ;; Ok (weighted_sum feature_size x a)).
Proof.
  intros H.
  assert (O : AttentionModel.output feature_size W b x n = Ok (frames_bool x)).
  { unfold AttentionModel.output. rewrite H. cbn [bind].
    rewrite <- (length_frames_bool x). now rewrite vmul_ones. }
  assert (A : AttentionModel.atten feature_size W b x n
              = normalize (frames_bool x)).
  { unfold AttentionModel.atten. now rewrite O. }
  split; [exact O|]. split; [exact A|].
  unfold AttentionModel.state. now rewrite A.
Qed.


Lemma reshaped_output_without_frames (fr : frame) (x : video) :
  (1 <= feature_size)%nat ->
  AttentionModel.reshaped_output feature_size W b (fr :: x) 0
  = Err DivisionByZero.
Proof.
  intros HF. rewrite reshaped_output_ones.
  unfold AttentionModel.attention_input, AttentionModel.avg_pooled.
  cbn [mapM INR]. rewrite vdiv_zero; [reflexivity|].
  unfold reduce_sum_frames. destruct feature_size; [lia | discriminate].
Qed.
End AttentionFacts.

(** ** Frames and videos the statements are tried on *)

Lemma active_one : active [1].
Proof. unfold active. simpl. rewrite Rabs_R1. lra. Qed.

Lemma inactive_zero (k : nat) : ~ active (repeat 0 k).
Proof.
  unfold active. intros H. apply H. clear H.
  induction k as [|k IH]; simpl; [reflexivity|].
  rewrite Rabs_R0, IH. lra.
Qed.

Lemma mask_of_one : mask_of [1] = 1.
Proof. apply mask_of_active, active_one. Qed.

Lemma mask_of_zero : mask_of [0] = 0.
Proof. apply mask_of_inactive, (inactive_zero 1). Qed.

Lemma normal_feature_one : has_normal_feature [1].
Proof.
  apply Exists_cons_hd. rewrite Rabs_R1. apply float32_min_normal_le_1.
Qed.

Lemma late_video_active : Exists active late_video.
Proof.
  unfold late_video. apply Exists_app. right. apply Exists_cons_hd, active_one.
Qed.

Lemma late_video_head_inactive (k : nat) :
  (k <= 19)%nat -> ~ Exists active (firstn k late_video).
Proof.
  intros Hk H. apply Exists_exists in H. destruct H as [fr [Hin Ha]].
  unfold late_video in Hin.
  rewrite firstn_app, repeat_length in Hin.
  replace (k - 19)%nat with 0%nat in Hin by lia.
  rewrite firstn_0, app_nil_r in Hin.
  assert (Hin' : In fr (repeat [0] 19)).
  { rewrite <- (firstn_skipn k (repeat [0] 19)). apply in_or_app. now left. }
  apply repeat_spec in Hin'. subst fr. now apply (inactive_zero 1).
Qed.

Lemma late_video_normal_feature : Exists has_normal_feature late_video.
Proof.
  unfold late_video. apply Exists_app. right.
  apply Exists_cons_hd, normal_feature_one.
Qed.

(** The mask of [late_video] cut to the 18 positions of the filter of width
    3 marks no slot, and its normalization is a division by zero. *)
Lemma late_video_cut_mask :
  ~ In 1 (firstn (length late_video - 3 + 1) (frames_bool late_video))
  /\ Rsum (firstn (length late_video - 3 + 1) (frames_bool late_video)) = 0
  /\ CnnModel.frame_bool (length late_video - 3 + 1) late_video
     = Err DivisionByZero.
Proof.
  assert (HL : length late_video = 20%nat) by reflexivity.
  assert (H18 : ~ Exists active (firstn (length late_video - 3 + 1) late_video)).
  { rewrite HL. apply late_video_head_inactive. lia. }
  unfold CnnModel.frame_bool. rewrite firstn_frames_bool.
  split; [|split].
  - intros H. now apply H18, In_mask_iff.
  - rewrite frames_bool_map. now apply Rsum_mask_zero.
  - apply normalize_mask_err; [rewrite HL; discriminate | exact H18].
Qed.

(** ** C1: the mask and the weights derived from it *)

(** C1, as amended.  Every entry of the mask is 0 or 1: 1 at a slot that
    holds a feature of absolute value [2^-126] or more, 0 at a slot of
    zeros.  The weights the mixture, convolutional and attention aggregators
    derive from it are the entries of the mask in use divided by its sum: the
    whole mask in the mixture aggregator, the mask cut to [h_len] slots in
    the convolutional one, the mask times the weights before it in the
    attention one, which is the mask when these weights are all 1.  Whenever
    the mask in use marks a slot its sum is not zero, and the weights are
    [1 / sum] at the marked slots and [0] at the others. *)
Theorem frame_mask_and_weights (x : video) :
  (length (frames_bool x) = length x
   /\ forall t fr, nth_error x t = Some fr ->
        (nth t (frames_bool x) 0 = 0 \/ nth t (frames_bool x) 0 = 1)
        /\ (has_normal_feature fr -> nth t (frames_bool x) 0 = 1)
        /\ (Forall (fun a => a = 0) fr -> nth t (frames_bool x) 0 = 0))
  /\ (In 1 (frames_bool x) ->
      Rsum (frames_bool x) <> 0
      /\ MixLogisticModel.frames_bool_normalized x
         = Ok (map (fun m => m / Rsum (frames_bool x)) (frames_bool x))
      /\ MixLogisticModel.frames_bool_normalized x
         = Ok (mask_weights (frames_bool x)))
  /\ (forall h_len, In 1 (firstn h_len (frames_bool x)) ->
      Rsum (firstn h_len (frames_bool x)) <> 0
      /\ CnnModel.frame_bool h_len x
         = Ok (map (fun m => m / Rsum (firstn h_len (frames_bool x)))
                   (firstn h_len (frames_bool x)))
      /\ CnnModel.frame_bool h_len x
         = Ok (mask_weights (firstn h_len (frames_bool x))))
  /\ (forall feature_size W b n,
      AttentionModel.reshaped_output feature_size W b x n
      = Ok (repeat 1 (length x)) ->
      In 1 (frames_bool x) ->
      AttentionModel.output feature_size W b x n = Ok (frames_bool x)
      /\ AttentionModel.atten feature_size W b x n
         = Ok (map (fun m => m / Rsum (frames_bool x)) (frames_bool x))
      /\ AttentionModel.atten feature_size W b x n
         = Ok (mask_weights (frames_bool x))).
Proof.
  split; [split|split; [|split]].
  - apply length_frames_bool.
  - intros t fr H. rewrite frames_bool_map.
    rewrite (nth_map_of_nth_error mask_of x t fr H).
    split; [apply mask_of_01|].
    split; [apply mask_of_normal_feature | apply mask_of_zero_frame].
  - apply normalize_mask_weights.
  - intros h_len. unfold CnnModel.frame_bool. rewrite firstn_frames_bool.
    apply normalize_mask_weights.
  - intros feature_size W b n Ho H.
    destruct (attention_of_unit_weights feature_size W b x n Ho) as [O [A _]].
    split; [exact O|]. rewrite A.
    now destruct (normalize_mask_weights x H) as [_ [Hq Hw]].
Qed.

Lemma frame_mask_and_weights_witness :
  In 1 (frames_bool [[1]; [0]; [1]])
  /\ Rsum (frames_bool [[1]; [0]; [1]]) <> 0
  /\ MixLogisticModel.frames_bool_normalized [[1]; [0]; [1]]
     = Ok (mask_weights (frames_bool [[1]; [0]; [1]])).
Proof.
  assert (H : In 1 (frames_bool [[1]; [0]; [1]])).
  { rewrite frames_bool_map. left. exact mask_of_one. }
  split; [exact H|].
  destruct (proj1 (proj2 (frame_mask_and_weights [[1]; [0]; [1]])) H)
    as [Hs [_ Hw]].
  split; [exact Hs | exact Hw].
Defined.

(** C1 as stated fails in five ways.  On a video whose frame slots are all
    zero the sum of the mask is zero and the weights are 0/0.  In the
    convolutional aggregator the mask is cut before it is summed: a video
    with a marked slot can give the filter of width 3 a mask that marks
    none.  In the attention aggregator a declared frame count of zero makes
    the weights before the mask a division by zero, and the attention
    weights with them.  And the weights of three marked slots are the
    float32 number [11184811 * 2^-25] each, which add up to
    [33554433 * 2^-25] and not to 1; and the sum of absolute values of the
    frame [2^-140] is a float32 number other than zero below the normal
    range, which a kernel that flushes such numbers takes for zero. *)
Lemma frame_weights_all_zero_video :
  (frames_bool [[0; 0]] = [0]
   /\ MixLogisticModel.frames_bool_normalized [[0; 0]] = Err DivisionByZero)
  /\ (In 1 (frames_bool late_video)
      /\ CnnModel.frame_bool (length late_video - 3 + 1) late_video
         = Err DivisionByZero)
  /\ (In 1 (frames_bool [[1]])
      /\ AttentionModel.reshaped_output 1 (fun _ _ => 0) (fun _ => 0) [[1]] 0
         = Err DivisionByZero
      /\ AttentionModel.atten 1 (fun _ _ => 0) (fun _ => 0) [[1]] 0
         = Err DivisionByZero)
  /\ (float32_div (float32_of 1 0) (float32_of 3 0)
      = SpecFloat.S754_finite false 11184811 (-25)
      /\ (3 * 11184811 <> 2 ^ 25)%Z)
  /\ float32_subnormal (float32_frames_sum [float32_of 1 (-140)]).
Proof.
  split; [|split; [|split; [|split]]].
  - split.
    + rewrite frames_bool_map. simpl. f_equal.
      apply mask_of_inactive, (inactive_zero 2).
    + apply normalize_mask_err; [discriminate|].
      intros H. inversion H as [fr l Ha | fr l Ha]; subst.
      * now apply (inactive_zero 2).
      * inversion Ha.
  - split; [apply In_mask_iff, late_video_active | apply late_video_cut_mask].
  - assert (E : AttentionModel.reshaped_output 1 (fun _ _ => 0) (fun _ => 0)
                  [[1]] 0 = Err DivisionByZero)
      by (apply reshaped_output_without_frames; lia).
    split; [rewrite frames_bool_map; left; exact mask_of_one|].
    split; [exact E|].
    unfold AttentionModel.atten, AttentionModel.output. now rewrite E.
  - split; [vm_compute; reflexivity | vm_compute; discriminate].
  - left. vm_compute. reflexivity.
Qed.

(** ** Weighted sums under the normalized mask *)

Lemma weighted_sum_map {A : Type} (width : nat) (row : A -> list R)
  (g : A -> R) (l : list A) :
  weighted_sum width (map row l) (map g l)
  = map (fun j => Rsum (map (fun a => nth j (row a) 0 * g a) l)) (seq 0 width).
Proof.
  unfold weighted_sum. apply map_ext. intros j. f_equal.
  induction l as [|a l IH]; simpl; [reflexivity | now rewrite IH].
Qed.

Lemma is_active_true (fr : frame) : active fr -> is_active fr = true.
Proof.
  unfold active, is_active. intros H. pose proof (Rsum_abs_nonneg fr).
  destruct (Rgt_dec _ 0); [reflexivity | lra].
Qed.

Lemma mask_of_is_active (fr : frame) :
  mask_of fr = if is_active fr then 1 else 0.
Proof. unfold mask_of, is_active. now destruct (Rgt_dec _ 0). Qed.

Lemma Rsum_mask_count (x : video) :
  Rsum (map mask_of x) = INR (length (filter is_active x)).
Proof.
  induction x as [|fr x IH]; [reflexivity|].
  cbn [map filter]. rewrite Rsum_cons, IH, mask_of_is_active.
  destruct (is_active fr); cbn [length]; [rewrite S_INR|]; lra.
Qed.

Lemma Rsum_masked_column (j : nat) (c : R) (x : video) :
  Rsum (map (fun fr => nth j fr 0 * (mask_of fr / c)) x)
  = Rsum (map (fun fr => nth j fr 0) (filter is_active x)) / c.
Proof.
  induction x as [|fr x IH]; cbn [map filter].
  - unfold Rsum, Rdiv. simpl. ring.
  - rewrite Rsum_cons, IH, mask_of_is_active.
    destruct (is_active fr); cbn [map]; rewrite ?Rsum_cons; unfold Rdiv; ring.
Qed.

Lemma normalized_mask_pool (feature_size : nat) (x : video) :
  Exists active x ->
  (a <- normalize (frames_bool x) ;; Ok (weighted_sum feature_size x a))
  = mean_active feature_size x
  /\ exists s, mean_active feature_size x = Ok s.
Proof.
  intros H. pose proof (Rsum_mask_pos x H) as Hpos.
  assert (Hc : INR (length (filter is_active x)) <> 0)
    by (rewrite <- Rsum_mask_count; lra).
  unfold mean_active. rewrite (vdiv_ok _ _ Hc). split; [|eauto].
  unfold normalize. rewrite frames_bool_map, vdiv_ok by lra.
  cbn [bind]. f_equal. rewrite map_map.
  rewrite <- (map_id x) at 1. rewrite weighted_sum_map.
  unfold reduce_sum_frames. rewrite map_map. apply map_ext. intros j.
  rewrite Rsum_mask_count. apply Rsum_masked_column.
Qed.

Lemma normalized_mask_uniform (x : video) :
  Exists active x ->
  normalize (frames_bool x)
  = Ok (map (fun fr => if is_active fr
                       then 1 / INR (length (filter is_active x)) else 0) x).
Proof.
  intros H. pose proof (Rsum_mask_pos x H) as Hpos.
  unfold normalize. rewrite frames_bool_map, vdiv_ok by lra.
  f_equal. rewrite map_map. apply map_ext. intros fr.
  rewrite Rsum_mask_count, mask_of_is_active.
  destruct (is_active fr); unfold Rdiv; ring.
Qed.

Lemma attention_pool (feature_size : nat) (W : matrix) (b : vector)
  (x : video) (n : nat) :
  n <> 0%nat -> Exists active x ->
  AttentionModel.atten feature_size W b x n
  = Ok (map (fun fr => if is_active fr
                       then 1 / INR (length (filter is_active x)) else 0) x)
  /\ AttentionModel.state feature_size W b x n = mean_active feature_size x.
Proof.
  intros Hn H.
  destruct (attention_input_ok feature_size x n Hn) as [a Ha].
  rewrite atten_is_normalized_mask, state_unfold, Ha. cbn [bind].
  split; [now apply normalized_mask_uniform | now apply normalized_mask_pool].
Qed.

(** ** C10: the attention weights do not depend on the attention variables *)




(** ** C2: the softmax of the attention aggregator *)

(** The input used below: two frames of one feature, both declared. *)
Lemma attention_input_two_frames :
  AttentionModel.attention_input 1 [[1]; [2]] 2 = Ok [[1; 3 / 2]; [2; 3 / 2]].
Proof.
  unfold AttentionModel.attention_input, AttentionModel.avg_pooled.
  rewrite vdiv_ok by (cbn [INR]; lra).
  cbv [reduce_sum_frames map seq nth Rsum fold_right mapM bind app INR].
  replace ((1 + (2 + 0)) / (1 + 1)) with (3 / 2) by lra. reflexivity.
Qed.

(** C2 at a failing input.  On the video of the two frames [1] and [2], with
    a logit that reads the frame's own feature, the source weights the frames
    uniformly, whatever the attention variables: the state is their plain
    mean [3/2].  A softmax across the frame axis, as the claim words it,
    gives the second frame the larger weight and another state. *)
Theorem attention_softmax_axis_divergence :
  let W : matrix := fun i _ => if (i =? 0)%nat then 1 else 0 in
  let b : vector := fun _ => 0 in
  (forall W' b', AttentionModel.state 1 W' b' [[1]; [2]] 2 = Ok [3 / 2])
  /\ AttentionModel.atten 1 W b [[1]; [2]] 2 = Ok [1 / 2; 1 / 2]
  /\ AttentionSpec.atten 1 W b [[1]; [2]] 2
     = Ok [exp 1 / (exp 1 + exp 2); exp 2 / (exp 1 + exp 2)]
  /\ AttentionSpec.state 1 W b [[1]; [2]] 2 <> Ok [3 / 2].
Proof.
  intros W b.
  assert (Hact : Exists active [[1]; [2]]) by (apply Exists_cons_hd, active_one).
  assert (H2 : active [2]).
  { unfold active. simpl. rewrite Rabs_pos_eq; lra. }
  assert (Hn : (2 <> 0)%nat) by discriminate.
  pose proof (exp_pos 1) as P1. pose proof (exp_pos 2) as P2.
  assert (Hlt : exp 1 < exp 2) by (apply exp_increasing; lra).
  assert (Hspec : AttentionSpec.atten 1 W b [[1]; [2]] 2
                  = Ok [exp 1 / (exp 1 + exp 2); exp 2 / (exp 1 + exp 2)]).
  { unfold AttentionSpec.atten, AttentionSpec.logits.
    rewrite attention_input_two_frames. cbn [bind map].
    rewrite !xw_plus_b_scalar. unfold W, b.
    cbn [seq map nth Nat.eqb Nat.mul Nat.add Rsum fold_right].
    replace (1 * 1 + (3 / 2 * 0 + 0) + 0) with 1 by lra.
    replace (2 * 1 + (3 / 2 * 0 + 0) + 0) with 2 by lra.
    rewrite frames_bool_map. cbn [map].
    rewrite (mask_of_active _ active_one), (mask_of_active _ H2).
    unfold softmax, vmul, normalize. cbn [map combine fst snd].
    rewrite vdiv_ok.
    - cbv [map Rsum fold_right]. do 2 f_equal; [|f_equal]; field; lra.
    - cbv [map Rsum fold_right]. intros E.
      assert (exp 1 / (exp 1 + (exp 2 + 0)) * 1
              + (exp 2 / (exp 1 + (exp 2 + 0)) * 1 + 0) = 1) by (field; lra).
      lra. }
  split; [|split; [|split]].
  - intros W' b'.
    destruct (attention_pool 1 W' b' [[1]; [2]] 2 Hn Hact) as [_ ->].
    unfold mean_active. cbn [filter].
    rewrite (is_active_true _ active_one), (is_active_true _ H2).
    rewrite vdiv_ok by (cbn [length INR]; lra).
    cbv [reduce_sum_frames map seq nth Rsum fold_right length INR].
    do 2 f_equal. field.
  - destruct (attention_pool 1 W b [[1]; [2]] 2 Hn Hact) as [-> _].
    cbn [map filter].
    rewrite (is_active_true _ active_one), (is_active_true _ H2).
    cbn [length INR]. replace (1 / (1 + 1)) with (1 / 2) by lra. reflexivity.
  - exact Hspec.
  - unfold AttentionSpec.state. rewrite Hspec. cbn [bind].
    cbv [weighted_sum map seq combine nth fst snd Rsum fold_right].
    intros E. injection E as E.
    assert (Hq : exp 1 / (exp 1 + exp 2) + exp 2 / (exp 1 + exp 2) = 1)
      by (field; lra).
    assert (Hp : exp 1 / (exp 1 + exp 2) < exp 2 / (exp 1 + exp 2)).
    { unfold Rdiv. apply Rmult_lt_compat_r; [apply Rinv_0_lt_compat; lra | exact Hlt]. }
    lra.
Qed.

(** ** C3: the mixture aggregator on identical frames *)

Lemma combine_repeat {A B : Type} (a : A) (c : B) (n : nat) :
  combine (repeat a n) (repeat c n) = repeat (a, c) n.
Proof.
  induction n as [|n IH]; simpl; [reflexivity | now rewrite IH].
Qed.

Lemma sigmoid_0 : sigmoid 0 = 1 / 2.
Proof. unfold sigmoid. rewrite Ropp_0, exp_0. lra. Qed.

Lemma normalize_singleton (s : R) : s <> 0 -> normalize [s] = Ok [1].
Proof.
  intros Hs. unfold normalize. cbn [Rsum fold_right].
  rewrite vdiv_ok by lra. cbn [map]. f_equal. f_equal. field. lra.
Qed.

Section MixFacts.
Variables feature_size vocab_size : nat.
Variables (hidden_weights : matrix) (hidden_biases : vector).
Variables (output_weights : matrix) (output_biases : vector).

(** The mask and the weights of a video of [L] slots that all hold one
    marked frame. *)
Lemma identical_frames_weights (v : frame) (L : nat) :
  (1 <= L)%nat -> mask_of v = 1 ->
  frames_bool (repeat v L) = repeat 1 L
  /\ MixLogisticModel.frames_bool_normalized (repeat v L)
     = Ok (repeat (1 / Rsum (frames_bool (repeat v L))) L).
Proof.
  intros HL Hv.
  assert (M : frames_bool (repeat v L) = repeat 1 L)
    by (now rewrite frames_bool_map, map_repeat, Hv).
  split; [exact M|].
  assert (H : In 1 (frames_bool (repeat v L))).
  { rewrite M. destruct L as [|L]; [lia | now left]. }
  unfold MixLogisticModel.frames_bool_normalized.
  destruct (normalize_mask_weights _ H) as [_ [_ ->]]. f_equal.
  unfold mask_weights. generalize (Rsum (frames_bool (repeat v L))).
  intros s. rewrite M, map_repeat.
  destruct (Req_dec_T 1 0) as [E|_]; [exfalso; lra | reflexivity].
Qed.

(** Line 483 on such a video: class by class, the sum over the slots of the
    prediction on the frame times the weight of a slot. *)
Lemma identical_frames_weighted_output (v : frame) (L : nat) :
  (1 <= L)%nat -> mask_of v = 1 ->
  MixLogisticModel.weighted_output feature_size vocab_size
    hidden_weights hidden_biases output_weights output_biases (repeat v L)
  = Ok (map (fun j =>
               Rsum (repeat
                       (nth j (MixLogisticModel.output_of_frame
                                 feature_size vocab_size hidden_weights
                                 hidden_biases output_weights output_biases v)
                            0
                        * (1 / Rsum (frames_bool (repeat v L)))) L))
            (seq 0 vocab_size)).
Proof.
  intros HL Hv. unfold MixLogisticModel.weighted_output.
  destruct (identical_frames_weights v L HL Hv) as [_ ->]. cbn [bind].
  f_equal. unfold weighted_sum, MixLogisticModel.frame_output.
  apply map_ext. intros j.
  now rewrite map_repeat, combine_repeat, map_repeat.
Qed.
End MixFacts.

(** C3, as amended.  On a video whose frame slots all hold one feature
    vector that the mask marks, every slot has the same weight, one over the
    sum of the mask; the frame-weighted sum of the per-frame predictions
    (line 483) is, class by class, the sum over the slots of the prediction
    on that vector times this weight; and the frame-weighted average
    prediction (line 484) is this sum divided by its total over the classes.
    With one class it is 1 whenever the weighted sum is greater than zero,
    whatever the prediction on the vector is. *)
Theorem mixture_identical_frames (feature_size vocab_size : nat)
  (hidden_weights : matrix) (hidden_biases : vector)
  (output_weights : matrix) (output_biases : vector)
  (v : frame) (L : nat) :
  In 1 (frames_bool (repeat v L)) ->
  let prediction :=
    MixLogisticModel.output_of_frame feature_size vocab_size
      hidden_weights hidden_biases output_weights output_biases v in
  let weight := 1 / Rsum (frames_bool (repeat v L)) in
  let weighted :=
    map (fun j => Rsum (repeat (nth j prediction 0 * weight) L))
        (seq 0 vocab_size) in
  frames_bool (repeat v L) = repeat 1 L
  /\ MixLogisticModel.frames_bool_normalized (repeat v L)
     = Ok (repeat weight L)
  /\ MixLogisticModel.weighted_output feature_size vocab_size
       hidden_weights hidden_biases output_weights output_biases (repeat v L)
     = Ok weighted
  /\ MixLogisticModel.output feature_size vocab_size
       hidden_weights hidden_biases output_weights output_biases (repeat v L)
     = normalize weighted
  /\ (vocab_size = 1%nat -> 0 < Rsum weighted ->
      MixLogisticModel.output feature_size vocab_size
        hidden_weights hidden_biases output_weights output_biases (repeat v L)
      = Ok [1]).
Proof.
  intros Hm prediction weight weighted.
  assert (Hv : mask_of v = 1).
  { rewrite frames_bool_map in Hm. apply in_map_iff in Hm.
    destruct Hm as [fr [Hfr Hin]]. apply repeat_spec in Hin. now subst fr. }
  assert (HL : (1 <= L)%nat) by (destruct L; [contradiction | lia]).
  destruct (identical_frames_weights v L HL Hv) as [M N].
  pose proof (identical_frames_weighted_output feature_size vocab_size
                hidden_weights hidden_biases output_weights output_biases
                v L HL Hv) as E.
  fold prediction in E. fold weight in E. fold weighted in E.
  assert (O : MixLogisticModel.output feature_size vocab_size
                hidden_weights hidden_biases output_weights output_biases
                (repeat v L)
              = normalize weighted).
  { unfold MixLogisticModel.output. now rewrite E. }
  split; [exact M|]. split; [exact N|]. split; [exact E|].
  split; [exact O|].
  intros HV Hs. rewrite O. unfold weighted in *. rewrite HV in *.
  cbn [seq map] in *. apply normalize_singleton.
  cbn [Rsum fold_right] in Hs. lra.
Qed.

Lemma mixture_identical_frames_witness :
  In 1 (frames_bool (repeat [1] 2))
  /\ MixLogisticModel.frames_bool_normalized (repeat [1] 2)
     = Ok (repeat (1 / Rsum (frames_bool (repeat [1] 2))) 2).
Proof.
  assert (H : In 1 (frames_bool (repeat [1] 2))).
  { rewrite frames_bool_map. left. exact mask_of_one. }
  split; [exact H|].
  exact (proj1 (proj2 (mixture_identical_frames 1 1 (fun _ _ => 0) (fun _ => 0)
                         (fun _ _ => 0) (fun _ => 0) [1] 2 H))).
Defined.

(** C3 as stated fails in two ways.  When the identical vector is the zero
    vector every slot is masked out, the weights are 0/0 and there is no
    weighted average.  And line 484 divides the weighted sum by its total
    over the classes: on one slot that holds the frame [1], with one class
    and all weights and biases zero, the prediction on the frame is [1 / 2]
    and the frame-weighted average prediction is [1]. *)
Lemma mixture_identical_zero_frames :
  MixLogisticModel.weighted_output 1 1 (fun _ _ => 0) (fun _ => 0)
    (fun _ _ => 0) (fun _ => 0) (repeat [0] 2)
  = Err DivisionByZero
  /\ MixLogisticModel.output_of_frame 1 1 (fun _ _ => 0) (fun _ => 0)
       (fun _ _ => 0) (fun _ => 0) [1]
     = [1 / 2]
  /\ MixLogisticModel.output 1 1 (fun _ _ => 0) (fun _ => 0)
       (fun _ _ => 0) (fun _ => 0) (repeat [1] 1)
     = Ok [1]
  /\ MixLogisticModel.output 1 1 (fun _ _ => 0) (fun _ => 0)
       (fun _ _ => 0) (fun _ => 0) (repeat [1] 1)
     <> Ok (MixLogisticModel.output_of_frame 1 1 (fun _ _ => 0) (fun _ => 0)
              (fun _ _ => 0) (fun _ => 0) [1]).
Proof.
  assert (P : MixLogisticModel.output_of_frame 1 1 (fun _ _ => 0) (fun _ => 0)
                (fun _ _ => 0) (fun _ => 0) [1]
              = [1 / 2]).
  { unfold MixLogisticModel.output_of_frame, fully_connected, xw_plus_b.
    cbn [seq map Rsum fold_right]. f_equal.
    rewrite <- sigmoid_0. f_equal. ring. }
  assert (O : MixLogisticModel.output 1 1 (fun _ _ => 0) (fun _ => 0)
                (fun _ _ => 0) (fun _ => 0) (repeat [1] 1)
              = Ok [1]).
  { unfold MixLogisticModel.output.
    pose proof (identical_frames_weighted_output 1 1 (fun _ _ => 0)
                  (fun _ => 0) (fun _ _ => 0) (fun _ => 0) [1] 1 (le_n 1)
                  mask_of_one) as E.
    unfold frame in E. rewrite E.
    cbn [bind]. rewrite P. cbn [seq map nth repeat].
    apply normalize_singleton.
    rewrite frames_bool_map. cbn [map]. rewrite mask_of_one.
    cbn [Rsum fold_right]. lra. }
  split; [|split; [exact P|split; [exact O|]]].
  - unfold MixLogisticModel.weighted_output,
      MixLogisticModel.frames_bool_normalized.
    rewrite normalize_mask_err; [reflexivity | discriminate |].
    intros H. apply Exists_exists in H. destruct H as [fr [Hin Ha]].
    apply repeat_spec in Hin. subst fr. now apply (inactive_zero 1).
  - rewrite O, P. intros H. injection H as H. lra.
Qed.

(** ** The convolutional aggregator: shapes *)

Lemma length_windows {A : Type} (w : nat) (x : list A) :
  (1 <= w)%nat -> length (windows w x) = (length x + 1 - w)%nat.
Proof.
  intros Hw. induction x as [|a tl IH]; cbn [windows length].
  - lia.
  - destruct (Nat.leb_spec w (S (length tl))) as [Hle|Hgt]; cbn [length].
    + rewrite IH. lia.
    + lia.
Qed.

Lemma filters_literal :
  CnnModel.filters
  = [(1, 1, 400); (3, 1, 300); (5, 2, 200); (10, 5, 100); (20, 10, 100)]%nat.
Proof. reflexivity. Qed.

Section CnnFacts.
Variable feature_size : nat.
Variable W : nat -> nat -> nat -> nat -> R.
Variable b : nat -> vector.

Lemma conv_ok (filter_size num_filter : nat) (x : video) :
  (1 <= filter_size <= length x)%nat ->
  exists cv, CnnModel.conv feature_size W filter_size num_filter x = Ok cv
             /\ length cv = (length x - filter_size + 1)%nat
             /\ Forall (fun row => length row = num_filter) cv.
Proof.
  intros [H1 H2]. unfold CnnModel.conv.
  destruct (Nat.leb_spec 1 filter_size) as [_|]; [|lia].
  destruct (Nat.leb_spec filter_size (length x)) as [_|]; [|lia].
  cbn [andb]. eexists. split; [reflexivity|]. split.
  - rewrite length_map, length_windows by exact H1. lia.
  - apply Forall_forall. intros row Hrow. apply in_map_iff in Hrow.
    destruct Hrow as [win [<- _]]. now rewrite length_map, length_seq.
Qed.

Lemma conv_invalid (filter_size num_filter : nat) (x : video) :
  (length x < filter_size)%nat ->
  CnnModel.conv feature_size W filter_size num_filter x = Err InvalidShape.
Proof.
  intros H. unfold CnnModel.conv.
  destruct (Nat.leb_spec filter_size (length x)) as [|_]; [lia|].
  now rewrite andb_false_r.
Qed.

Lemma h_ok (filter_size num_filter : nat) (x : video) :
  (1 <= filter_size <= length x)%nat ->
  exists h_out, CnnModel.h feature_size W b filter_size num_filter x = Ok h_out
                /\ length h_out = (length x - filter_size + 1)%nat
                /\ Forall (fun row => length row = num_filter) h_out.
Proof.
  intros H. unfold CnnModel.h.
  destruct (conv_ok filter_size num_filter x H) as [cv [-> [Hl _]]].
  cbn [bind]. eexists. split; [reflexivity|]. split.
  - now rewrite length_map.
  - apply Forall_forall. intros row Hrow. apply in_map_iff in Hrow.
    destruct Hrow as [r [<- _]]. now rewrite length_map, length_seq.
Qed.

Lemma pooled_length (filter_size num_filter : nat) (x : video) (p : list R) :
  CnnModel.pooled feature_size W b filter_size num_filter x = Ok p ->
  length p = num_filter.
Proof.
  unfold CnnModel.pooled.
  destruct (CnnModel.h _ _ _ _ _ _) as [h_out|]; cbn [bind]; [|discriminate].
  destruct (CnnModel.frame_bool _ _) as [fb|]; cbn [bind]; [|discriminate].
  intros E. inversion E. unfold weighted_sum. now rewrite length_map, length_seq.
Qed.

Lemma pooled_ok (filter_size num_filter : nat) (x : video) :
  (1 <= filter_size <= length x)%nat ->
  Exists active (firstn (length x - filter_size + 1) x) ->
  exists p, CnnModel.pooled feature_size W b filter_size num_filter x = Ok p.
Proof.
  intros H Ha. unfold CnnModel.pooled.
  destruct (h_ok filter_size num_filter x H) as [h_out [-> [Hl _]]].
  cbn [bind]. unfold CnnModel.frame_bool. rewrite Hl, firstn_frames_bool.
  destruct (normalize_mask_ok _ Ha) as [w [-> _]]. cbn [bind]. eauto.
Qed.

Lemma pooled_division_by_zero (filter_size num_filter : nat) (x : video) :
  (1 <= filter_size <= length x)%nat ->
  ~ Exists active (firstn (length x - filter_size + 1) x) ->
  CnnModel.pooled feature_size W b filter_size num_filter x = Err DivisionByZero.
Proof.
  intros H Ha. unfold CnnModel.pooled.
  destruct (h_ok filter_size num_filter x H) as [h_out [-> [Hl _]]].
  cbn [bind]. unfold CnnModel.frame_bool. rewrite Hl, firstn_frames_bool.
  rewrite normalize_mask_err; [reflexivity | | exact Ha].
  destruct x as [|fr x]; [cbn [length] in H; lia|].
  replace (length (fr :: x) - filter_size + 1)%nat
    with (S (length (fr :: x) - filter_size)) by lia.
  discriminate.
Qed.

Lemma h_drop_unfold (x : video) :
  CnnModel.h_drop feature_size W b x
  = (p1 <- CnnModel.pooled feature_size W b 1 400 x ;;
     p3 <- CnnModel.pooled feature_size W b 3 300 x ;;
     p5 <- CnnModel.pooled feature_size W b 5 200 x ;;
     p10 <- CnnModel.pooled feature_size W b 10 100 x ;;
     p20 <- CnnModel.pooled feature_size W b 20 100 x ;;
     Ok (p1 ++ p3 ++ p5 ++ p10 ++ p20)).
Proof.
  unfold CnnModel.h_drop, CnnModel.pooled_outputs, fmap.
  rewrite filters_literal. cbn [mapM].
  destruct (CnnModel.pooled feature_size W b 1 400 x); cbn [bind]; [|reflexivity].
  destruct (CnnModel.pooled feature_size W b 3 300 x); cbn [bind]; [|reflexivity].
  destruct (CnnModel.pooled feature_size W b 5 200 x); cbn [bind]; [|reflexivity].
  destruct (CnnModel.pooled feature_size W b 10 100 x); cbn [bind]; [|reflexivity].
  destruct (CnnModel.pooled feature_size W b 20 100 x); cbn [bind]; [|reflexivity].
  cbn [concat]. now rewrite app_nil_r.
Qed.

Lemma h_drop_length (x : video) (v : list R) :
  CnnModel.h_drop feature_size W b x = Ok v -> length v = 1100%nat.
Proof.
  rewrite h_drop_unfold.
  destruct (CnnModel.pooled feature_size W b 1 400 x) as [p1|] eqn:E1;
    cbn [bind]; [|discriminate].
  destruct (CnnModel.pooled feature_size W b 3 300 x) as [p3|] eqn:E3;
    cbn [bind]; [|discriminate].
  destruct (CnnModel.pooled feature_size W b 5 200 x) as [p5|] eqn:E5;
    cbn [bind]; [|discriminate].
  destruct (CnnModel.pooled feature_size W b 10 100 x) as [p10|] eqn:E10;
    cbn [bind]; [|discriminate].
  destruct (CnnModel.pooled feature_size W b 20 100 x) as [p20|] eqn:E20;
    cbn [bind]; [|discriminate].
  intros E. inversion E. rewrite !length_app.
  rewrite (pooled_length _ _ _ _ E1), (pooled_length _ _ _ _ E3),
    (pooled_length _ _ _ _ E5), (pooled_length _ _ _ _ E10),
    (pooled_length _ _ _ _ E20).
  reflexivity.
Qed.

Lemma Exists_firstn_le {A : Type} (P : A -> Prop) (n m : nat) (l : list A) :
  (n <= m)%nat -> Exists P (firstn n l) -> Exists P (firstn m l).
Proof.
  intros Hnm H. apply Exists_exists in H. destruct H as [a [Hin Ha]].
  apply Exists_exists. exists a. split; [|exact Ha].
  rewrite <- (firstn_skipn n (firstn m l)), firstn_firstn, Nat.min_l by lia.
  apply in_or_app. now left.
Qed.

Lemma h_drop_ok (x : video) :
  (20 <= length x)%nat ->
  Exists active (firstn (length x - 19) x) ->
  exists v, CnnModel.h_drop feature_size W b x = Ok v.
Proof.
  intros HL Ha. rewrite h_drop_unfold.
  destruct (pooled_ok 1 400 x) as [p1 ->]; [lia | |].
  { eapply Exists_firstn_le; [|exact Ha]. lia. }
  destruct (pooled_ok 3 300 x) as [p3 ->]; [lia | |].
  { eapply Exists_firstn_le; [|exact Ha]. lia. }
  destruct (pooled_ok 5 200 x) as [p5 ->]; [lia | |].
  { eapply Exists_firstn_le; [|exact Ha]. lia. }
  destruct (pooled_ok 10 100 x) as [p10 ->]; [lia | |].
  { eapply Exists_firstn_le; [|exact Ha]. lia. }
  destruct (pooled_ok 20 100 x) as [p20 ->]; [lia | |].
  { eapply Exists_firstn_le; [|exact Ha]. lia. }
  cbn [bind]. eauto.
Qed.
End CnnFacts.

(** ** C5: the shapes of the convolutional aggregator *)

(** C5.  A filter of width [filter_size] over a frame sequence of length [L]
    that it fits gives a convolution output, and an activation [h], of
    [L - filter_size + 1] positions with [num_filter] channels each.  The
    channel counts of the five filters sum to 1100, which is the length of
    the concatenated pooled vector whenever the model yields one; over at
    least 20 frame slots it yields one when one of the first [L - 19] slots
    is active, and fails only where a mask sum is zero. *)
Theorem cnn_output_shapes (feature_size : nat)
  (W : nat -> nat -> nat -> nat -> R) (b : nat -> vector)
  (filter_size num_filter : nat) (x : video) :
  (1 <= filter_size <= length x)%nat ->
  (exists cv, CnnModel.conv feature_size W filter_size num_filter x = Ok cv
              /\ length cv = (length x - filter_size + 1)%nat
              /\ Forall (fun row => length row = num_filter) cv)
  /\ (exists h_out,
         CnnModel.h feature_size W b filter_size num_filter x = Ok h_out
         /\ length h_out = (length x - filter_size + 1)%nat
         /\ Forall (fun row => length row = num_filter) h_out)
  /\ map fst (map fst CnnModel.filters) = [1; 3; 5; 10; 20]%nat
  /\ list_sum (map snd CnnModel.filters) = 1100%nat
  /\ (forall v, CnnModel.h_drop feature_size W b x = Ok v ->
                length v = list_sum (map snd CnnModel.filters))
  /\ ((20 <= length x)%nat ->
      Exists active (firstn (length x - 19) x) ->
      exists v, CnnModel.h_drop feature_size W b x = Ok v
                /\ length v = 1100%nat)
  /\ ((20 <= length x)%nat ->
      (exists v, CnnModel.h_drop feature_size W b x = Ok v
                 /\ length v = 1100%nat)
      \/ CnnModel.h_drop feature_size W b x = Err DivisionByZero).
Proof.
  intros H. split; [|split; [|split; [|split; [|split; [|split]]]]].
  - now apply conv_ok.
  - now apply h_ok.
  - reflexivity.
  - reflexivity.
  - intros v Hv. now rewrite (h_drop_length _ _ _ _ _ Hv).
  - intros HL Ha.
    destruct (h_drop_ok feature_size W b x HL Ha) as [v Hv].
    exists v. split; [exact Hv|]. now apply (h_drop_length _ _ _ _ _ Hv).
  - intros HL.
    destruct (CnnModel.h_drop feature_size W b x) as [v|e] eqn:E.
    + left. exists v. split; [reflexivity|]. now apply (h_drop_length _ _ _ _ _ E).
    + right. f_equal. revert E. rewrite h_drop_unfold.
      assert (P : forall w nf, (1 <= w <= 20)%nat ->
                    (exists p, CnnModel.pooled feature_size W b w nf x = Ok p)
                    \/ CnnModel.pooled feature_size W b w nf x = Err DivisionByZero).
      { intros w nf Hw.
        destruct (Exists_dec active (firstn (length x - w + 1) x) active_dec)
          as [Ha|Ha].
        - left. apply pooled_ok; [lia | exact Ha].
        - right. apply pooled_division_by_zero; [lia | exact Ha]. }
      destruct (P 1 400 ltac:(lia))%nat as [[p1 ->] | ->]; cbn [bind];
        [|intros E; now inversion E].
      destruct (P 3 300 ltac:(lia))%nat as [[p3 ->] | ->]; cbn [bind];
        [|intros E; now inversion E].
      destruct (P 5 200 ltac:(lia))%nat as [[p5 ->] | ->]; cbn [bind];
        [|intros E; now inversion E].
      destruct (P 10 100 ltac:(lia))%nat as [[p10 ->] | ->]; cbn [bind];
        [|intros E; now inversion E].
      destruct (P 20 100 ltac:(lia))%nat as [[p20 ->] | ->]; cbn [bind];
        [|intros E; now inversion E].
      discriminate.
Qed.

Lemma cnn_output_shapes_witness :
  (1 <= 3 <= length [[1]; [2]; [3]; [4]])%nat
  /\ exists cv, CnnModel.conv 1 (fun _ _ _ _ => 1) 3 300 [[1]; [2]; [3]; [4]]
                = Ok cv
                /\ length cv = (length [[1]; [2]; [3]; [4]] - 3 + 1)%nat
                /\ Forall (fun row => length row = 300%nat) cv.
Proof.
  assert (H : (1 <= 3 <= length [[1]; [2]; [3]; [4]])%nat) by (cbn [length]; lia).
  split; [exact H|].
  exact (proj1 (cnn_output_shapes 1 (fun _ _ _ _ => 1) (fun _ _ => 0) 3 300
                  [[1]; [2]; [3]; [4]] H)).
Defined.

(** ** C8: the denominators of the mask normalization *)

Lemma In_mask_firstn (h_len : nat) (x : video) :
  In 1 (firstn h_len (frames_bool x)) <-> Exists active (firstn h_len x).
Proof. rewrite firstn_frames_bool. apply In_mask_iff. Qed.

(** C8, as amended.  A slot that holds a feature of absolute value [2^-126]
    or more is marked by the mask.  A mask that marks a slot has a nonzero
    sum, and its normalization gives weights: the whole mask in the mixture
    aggregator; the mask cut to the [h_len = L - filter_size + 1] output
    positions in the convolutional aggregator, where it is the cut mask that
    must mark a slot; the mask times the weights before it in the attention
    aggregator, where these weights must all be 1.  A mask in use that marks
    no slot sums to zero and its normalization is a division by zero, which
    the pooling of the convolutional aggregator then is. *)
Theorem mask_denominators (x : video) :
  (forall h_len, Exists has_normal_feature (firstn h_len x) ->
                 In 1 (firstn h_len (frames_bool x)))
  /\ (In 1 (frames_bool x) ->
      Rsum (frames_bool x) <> 0
      /\ exists w, MixLogisticModel.frames_bool_normalized x = Ok w)
  /\ (forall h_len, In 1 (firstn h_len (frames_bool x)) ->
      Rsum (firstn h_len (frames_bool x)) <> 0
      /\ exists w, CnnModel.frame_bool h_len x = Ok w)
  /\ (forall feature_size W b n,
      AttentionModel.reshaped_output feature_size W b x n
      = Ok (repeat 1 (length x)) ->
      In 1 (frames_bool x) ->
      AttentionModel.output feature_size W b x n = Ok (frames_bool x)
      /\ Rsum (frames_bool x) <> 0
      /\ exists a, AttentionModel.atten feature_size W b x n = Ok a)
  /\ (x <> [] -> ~ In 1 (frames_bool x) ->
      Rsum (frames_bool x) = 0
      /\ MixLogisticModel.frames_bool_normalized x = Err DivisionByZero)
  /\ (forall h_len, firstn h_len x <> [] ->
      ~ In 1 (firstn h_len (frames_bool x)) ->
      Rsum (firstn h_len (frames_bool x)) = 0
      /\ CnnModel.frame_bool h_len x = Err DivisionByZero)
  /\ (forall feature_size W b filter_size num_filter,
      (1 <= filter_size <= length x)%nat ->
      ~ In 1 (firstn (length x - filter_size + 1) (frames_bool x)) ->
      CnnModel.pooled feature_size W b filter_size num_filter x
      = Err DivisionByZero).
Proof.
  split; [|split; [|split; [|split; [|split; [|split]]]]].
  - intros h_len H. rewrite firstn_frames_bool.
    now apply In_mask_normal_feature.
  - intros H. destruct (normalize_mask_weights x H) as [Hs [_ Hw]].
    split; [exact Hs|]. eexists. exact Hw.
  - intros h_len. unfold CnnModel.frame_bool. rewrite firstn_frames_bool.
    intros H. destruct (normalize_mask_weights _ H) as [Hs [_ Hw]].
    split; [exact Hs|]. eexists. exact Hw.
  - intros feature_size W b n Ho H.
    destruct (attention_of_unit_weights feature_size W b x n Ho) as [O [A _]].
    destruct (normalize_mask_weights x H) as [Hs [_ Hw]].
    split; [exact O|]. split; [exact Hs|]. rewrite A. eexists. exact Hw.
  - apply normalize_mask_unmarked.
  - intros h_len. unfold CnnModel.frame_bool. rewrite firstn_frames_bool.
    apply normalize_mask_unmarked.
  - intros feature_size W b filter_size num_filter Hf H.
    apply pooled_division_by_zero; [exact Hf|].
    intros E. now apply H, In_mask_firstn.
Qed.

Lemma mask_denominators_witness :
  In 1 (frames_bool [[0]; [1]])
  /\ Rsum (frames_bool [[0]; [1]]) <> 0
  /\ exists w, MixLogisticModel.frames_bool_normalized [[0]; [1]] = Ok w.
Proof.
  assert (H : In 1 (frames_bool [[0]; [1]])).
  { rewrite frames_bool_map. right. left. exact mask_of_one. }
  split; [exact H|].
  exact (proj1 (proj2 (mask_denominators [[0]; [1]])) H).
Defined.

(** C8 as stated fails in two ways.  In the convolutional aggregator a video
    can hold a frame with a feature 1 in a marked slot and still give the
    filter of width 3 a mask that sums to zero, since that mask is cut to the
    first [L - 2] slots: the pooling divides by zero.  In the attention
    aggregator the denominator is the sum of the mask times the weights
    before it, and with a declared frame count of zero these weights are a
    division by zero whatever the video holds.  A sum of absolute values
    other than zero need not mark a slot: that of the frame [2^-140] is a
    float32 number below the normal range, which a kernel that flushes such
    numbers takes for zero. *)
Lemma cnn_mask_denominator_zero :
  (Exists has_normal_feature late_video
   /\ In 1 (frames_bool late_video)
   /\ Rsum (firstn (length late_video - 3 + 1) (frames_bool late_video)) = 0
   /\ CnnModel.frame_bool (length late_video - 3 + 1) late_video
      = Err DivisionByZero
   /\ CnnModel.pooled 1 (fun _ _ _ _ => 0) (fun _ _ => 0) 3 300 late_video
      = Err DivisionByZero
   /\ CnnModel.h_drop 1 (fun _ _ _ _ => 0) (fun _ _ => 0) late_video
      = Err DivisionByZero)
  /\ (Exists has_normal_feature [[1]]
      /\ In 1 (frames_bool [[1]])
      /\ AttentionModel.output 1 (fun _ _ => 0) (fun _ => 0) [[1]] 0
         = Err DivisionByZero
      /\ AttentionModel.atten 1 (fun _ _ => 0) (fun _ => 0) [[1]] 0
         = Err DivisionByZero)
  /\ float32_subnormal (float32_frames_sum [float32_of 1 (-140)]).
Proof.
  assert (HL : length late_video = 20%nat) by reflexivity.
  assert (H18 : ~ Exists active (firstn (length late_video - 3 + 1) late_video)).
  { rewrite HL. apply late_video_head_inactive. lia. }
  assert (P3 : CnnModel.pooled 1 (fun _ _ _ _ => 0) (fun _ _ => 0) 3 300 late_video
               = Err DivisionByZero).
  { apply pooled_division_by_zero; [rewrite HL; lia | exact H18]. }
  destruct late_video_cut_mask as [_ [S0 F0]].
  split; [|split; [|left; vm_compute; reflexivity]].
  - split; [exact late_video_normal_feature|].
    split; [apply In_mask_iff, late_video_active|].
    split; [exact S0|]. split; [exact F0|]. split; [exact P3|].
    rewrite h_drop_unfold.
    destruct (pooled_ok 1 (fun _ _ _ _ => 0) (fun _ _ => 0) 1 400 late_video)
      as [p1 ->].
    + rewrite HL. lia.
    + rewrite HL. exact late_video_active.
    + cbn [bind]. now rewrite P3.
  - assert (E : AttentionModel.reshaped_output 1 (fun _ _ => 0) (fun _ => 0)
                  [[1]] 0 = Err DivisionByZero)
      by (apply reshaped_output_without_frames; lia).
    assert (O : AttentionModel.output 1 (fun _ _ => 0) (fun _ => 0) [[1]] 0
                = Err DivisionByZero)
      by (unfold AttentionModel.output; now rewrite E).
    split; [apply Exists_cons_hd, normal_feature_one|].
    split; [rewrite frames_bool_map; left; exact mask_of_one|].
    split; [exact O|]. unfold AttentionModel.atten. now rewrite O.
Qed.

(** ** C9: the optional arguments of DbofModel.create_model *)

Lemma falsy_values (v : pyval) :
  truthy v = false <-> v = PyNone \/ v = PyBool false \/ v = PyInt 0.
Proof.
  split.
  - destruct v as [|[|]|z]; cbn [truthy]; intros H; try discriminate; auto.
    right. right. f_equal. apply Z.eqb_eq. now apply negb_false_iff.
  - intros [-> | [-> | ->]]; reflexivity.
Qed.

Lemma py_or_falsy (v d : pyval) : truthy v = false -> py_or v d = d.
Proof. intros H. unfold py_or. now rewrite H. Qed.

Lemma py_or_truthy_default (v : pyval) (d : pyval) :
  truthy d = true -> truthy (py_or v d) = true.
Proof.
  intros H. unfold py_or. destruct (truthy v) eqn:E; [exact E | exact H].
Qed.

(** C9.  Each optional argument is combined with its flag by [or]: a falsy
    argument ([None], [False] or [0]) gives the flag's value.  When the flag
    of batch normalization, or of the sampling of random frames, is true, the
    local variable is true whatever the caller passes, the model takes the
    branch of independent sampling, and a call passing [False] builds what
    the call passing [True] builds. *)
Theorem dbof_arguments_or_flags (FLAGS : flags) (a : DbofModel.arguments) :
  let l := DbofModel.bind_locals FLAGS a in
  (forall v, truthy v = false <-> v = PyNone \/ v = PyBool false \/ v = PyInt 0)
  /\ (truthy (DbofModel.arg_iterations a) = false ->
      DbofModel.l_iterations l = PyInt (iterations FLAGS))
  /\ (truthy (DbofModel.arg_add_batch_norm a) = false ->
      DbofModel.l_add_batch_norm l = PyBool (dbof_add_batch_norm FLAGS))
  /\ (truthy (DbofModel.arg_sample_random_frames a) = false ->
      DbofModel.l_random_frames l = PyBool (sample_random_frames FLAGS))
  /\ (truthy (DbofModel.arg_cluster_size a) = false ->
      DbofModel.l_cluster_size l = PyInt (dbof_cluster_size FLAGS))
  /\ (truthy (DbofModel.arg_hidden_size a) = false ->
      DbofModel.l_hidden1_size l = PyInt (dbof_hidden_size FLAGS))
  /\ (dbof_add_batch_norm FLAGS = true ->
      truthy (DbofModel.l_add_batch_norm l) = true)
  /\ (sample_random_frames FLAGS = true ->
      truthy (DbofModel.l_random_frames l) = true
      /\ forall u_frames u_sequence i x n,
           DbofModel.sample u_frames u_sequence l i x n
           = utils.SampleRandomFrames (u_frames i) x n
               (Z.to_nat (py_int (DbofModel.l_iterations l))))
  /\ (dbof_add_batch_norm FLAGS = true -> sample_random_frames FLAGS = true ->
      forall iters cs hs tr,
        let passing bn rf :=
          {| DbofModel.arg_iterations := iters;
             DbofModel.arg_add_batch_norm := PyBool bn;
             DbofModel.arg_sample_random_frames := PyBool rf;
             DbofModel.arg_cluster_size := cs;
             DbofModel.arg_hidden_size := hs;
             DbofModel.arg_is_training := tr |} in
        forall feature_size batch_norm cw cb hw hb classifier u_frames u_sequence
               model_input num_frames,
          DbofModel.create_model FLAGS feature_size batch_norm cw cb hw hb
            classifier u_frames u_sequence (passing false false)
            model_input num_frames
          = DbofModel.create_model FLAGS feature_size batch_norm cw cb hw hb
              classifier u_frames u_sequence (passing true true)
              model_input num_frames).
Proof.
  intros l. unfold l, DbofModel.bind_locals.
  cbn [DbofModel.l_iterations DbofModel.l_add_batch_norm
       DbofModel.l_random_frames DbofModel.l_cluster_size
       DbofModel.l_hidden1_size].
  split; [exact falsy_values|].
  split; [apply py_or_falsy|]. split; [apply py_or_falsy|].
  split; [apply py_or_falsy|]. split; [apply py_or_falsy|].
  split; [apply py_or_falsy|]. split; [|split].
  - intros H. apply py_or_truthy_default. exact H.
  - intros H. split.
    + apply py_or_truthy_default. exact H.
    + intros u_frames u_sequence i x n. unfold DbofModel.sample.
      cbn [DbofModel.l_random_frames DbofModel.l_iterations].
      rewrite py_or_truthy_default by exact H. reflexivity.
  - intros Hbn Hrf iters cs hs tr feature_size batch_norm cw cb hw hb
           classifier u_frames u_sequence model_input num_frames.
    unfold DbofModel.create_model, DbofModel.bind_locals.
    cbn [DbofModel.arg_iterations DbofModel.arg_add_batch_norm
         DbofModel.arg_sample_random_frames DbofModel.arg_cluster_size
         DbofModel.arg_hidden_size DbofModel.arg_is_training].
    rewrite Hbn, Hrf. reflexivity.
Qed.

Lemma dbof_arguments_or_flags_witness :
  truthy (DbofModel.arg_add_batch_norm DbofModel.no_arguments) = false
  /\ DbofModel.l_add_batch_norm
       (DbofModel.bind_locals default_flags DbofModel.no_arguments)
     = PyBool (dbof_add_batch_norm default_flags).
Proof.
  split; [reflexivity|].
  apply (dbof_arguments_or_flags default_flags DbofModel.no_arguments).
  reflexivity.
Defined.

(** ** C6: the initial values of the DBoF variables *)

(** C6, as amended.  Every variable the DBoF model creates itself starts
    from zero-mean Gaussian noise.  The standard deviation is
    [1/sqrt(feature_size)] for the cluster weights and the cluster biases and
    [1/sqrt(cluster_size)] for the hidden weights; for the hidden biases it
    is the constant [0.01].  The biases exist only without batch
    normalization. *)
Theorem dbof_initial_values (feature_size cluster_size hidden1_size : nat)
  (add_batch_norm : bool) :
  let vars :=
    DbofModel.variables feature_size cluster_size hidden1_size add_batch_norm in
  Forall (fun p => mean (snd p) = 0) vars
  /\ map fst vars
     = (if add_batch_norm
        then ["cluster_weights"; "hidden1_weights"]
        else ["cluster_weights"; "cluster_biases";
              "hidden1_weights"; "hidden1_biases"])%string
  /\ initial_stddev vars "cluster_weights" = Some (1 / sqrt (INR feature_size))
  /\ initial_stddev vars "cluster_biases"
     = (if add_batch_norm then None else Some (1 / sqrt (INR feature_size)))
  /\ initial_stddev vars "hidden1_weights" = Some (1 / sqrt (INR cluster_size))
  /\ initial_stddev vars "hidden1_biases"
     = (if add_batch_norm then None else Some 0.01)
  /\ forall FLAGS a,
       DbofModel.created_variables FLAGS feature_size a
       = DbofModel.variables feature_size
           (Z.to_nat (py_int (py_or (DbofModel.arg_cluster_size a)
                                    (PyInt (dbof_cluster_size FLAGS)))))
           (Z.to_nat (py_int (py_or (DbofModel.arg_hidden_size a)
                                    (PyInt (dbof_hidden_size FLAGS)))))
           (truthy (py_or (DbofModel.arg_add_batch_norm a)
                          (PyBool (dbof_add_batch_norm FLAGS)))).
Proof.
  intros vars. unfold vars, DbofModel.variables.
  destruct add_batch_norm; cbn [app];
    (split; [repeat constructor|]); repeat split; reflexivity.
Qed.

Lemma sqrt_8192_not_100 : 0.01 <> 1 / sqrt (INR (Z.to_nat 8192)).
Proof.
  rewrite INR_IZR_INZ, Z2Nat.id by lia. intros E.
  assert (Hpos : 0 < sqrt 8192) by (apply sqrt_lt_R0; lra).
  assert (Hs : sqrt 8192 = 100).
  { apply (f_equal (fun t => t * sqrt 8192)) in E.
    unfold Rdiv in E. rewrite Rmult_assoc, Rinv_l in E; lra. }
  pose proof (sqrt_sqrt 8192 ltac:(lra)) as Hsq. rewrite Hs in Hsq. lra.
Qed.

(** C6 as stated fails for the hidden biases: run without batch
    normalization and with the default cluster size 8192, the model draws
    them with standard deviation [0.01], which is not [1/sqrt(8192)]. *)
Lemma dbof_hidden_biases_stddev :
  let vars :=
    DbofModel.created_variables flags_without_batch_norm 1024
      DbofModel.no_arguments in
  initial_stddev vars "hidden1_biases" = Some 0.01
  /\ initial_stddev vars "hidden1_biases"
     <> Some (1 / sqrt (INR (Z.to_nat (dbof_cluster_size flags_without_batch_norm)))).
Proof.
  intros vars.
  assert (E : initial_stddev vars "hidden1_biases" = Some 0.01) by reflexivity.
  split; [exact E|]. rewrite E. intros H. injection H as H.
  now apply sqrt_8192_not_100.
Qed.

(** ** C7: the sampling utilities *)

Lemma Qfloor_unique (q : Q) (z : Z) :
  Qfloor q = z <-> (inject_Z z <= q /\ q < inject_Z (z + 1))%Q.
Proof.
  split.
  - intros <-. split; [apply Qfloor_le | apply Qlt_floor].
  - intros [Hlo Hhi].
    assert (H1 : (z <= Qfloor q)%Z).
    { rewrite <- (Qfloor_Z z). now apply Qfloor_resp_le. }
    assert (H2 : (Qfloor q < z + 1)%Z).
    { rewrite Zlt_Qlt. eapply Qle_lt_trans; [apply Qfloor_le | exact Hhi]. }
    lia.
Qed.

Lemma uniform_index_lt (u : Q) (n : nat) :
  (0 <= u)%Q -> (u < 1)%Q -> (1 <= n)%nat -> (utils.uniform_index u n < n)%nat.
Proof.
  intros H0 H1 Hn. unfold utils.uniform_index.
  set (m := inject_Z (Z.of_nat n)).
  assert (Hm : (0 < m)%Q).
  { unfold m. change 0%Q with (inject_Z 0). rewrite <- Zlt_Qlt. lia. }
  assert (Hlo : (0 <= Qfloor (u * m))%Z).
  { change 0%Z with (Qfloor 0). apply Qfloor_resp_le.
    apply Qmult_le_0_compat; [exact H0 | now apply Qlt_le_weak]. }
  assert (Hhi : (Qfloor (u * m) < Z.of_nat n)%Z).
  { rewrite Zlt_Qlt. fold m. eapply Qle_lt_trans; [apply Qfloor_le|].
    rewrite <- (Qmult_1_l m) at 2. apply Qmult_lt_compat_r; assumption. }
  lia.
Qed.

Lemma uniform_index_interval (u : Q) (n i : nat) :
  (0 <= u)%Q ->
  utils.uniform_index u n = i
  <-> (inject_Z (Z.of_nat i) <= u * inject_Z (Z.of_nat n)
       /\ u * inject_Z (Z.of_nat n) < inject_Z (Z.of_nat i + 1))%Q.
Proof.
  intros H0. unfold utils.uniform_index.
  set (q := (u * inject_Z (Z.of_nat n))%Q).
  assert (Hq : (0 <= Qfloor q)%Z).
  { change 0%Z with (Qfloor 0). apply Qfloor_resp_le. unfold q.
    apply Qmult_le_0_compat; [exact H0|].
    change 0%Q with (inject_Z 0). rewrite <- Zle_Qle. lia. }
  rewrite <- Qfloor_unique. split; intros H; lia.
Qed.

Lemma map_add_seq (s k : nat) : map (fun j => (s + j)%nat) (seq 0 k) = seq s k.
Proof.
  revert s. induction k as [|k IH]; intros s; [reflexivity|].
  cbn [seq map]. rewrite Nat.add_0_r. f_equal.
  rewrite <- seq_shift, map_map. rewrite <- (IH (S s)).
  apply map_ext. intros j. lia.
Qed.

Lemma gather_ok (x : video) (index : list nat) :
  Forall (fun i => (i < length x)%nat) index ->
  utils.gather x index = Ok (map (fun i => nth i x []) index).
Proof.
  intros H. unfold utils.gather. apply mapM_ok. intros i Hi.
  rewrite Forall_forall in H.
  now rewrite (nth_error_nth' x [] (H i Hi)).
Qed.

Lemma SampleRandomFrames_index_range (u : nat -> Q) (n k : nat) :
  (forall j, (0 <= u j)%Q /\ (u j < 1)%Q) -> (1 <= n)%nat ->
  length (utils.SampleRandomFrames_index u n k) = k
  /\ Forall (fun i => (i < n)%nat) (utils.SampleRandomFrames_index u n k).
Proof.
  intros Hu Hn. unfold utils.SampleRandomFrames_index. split.
  - now rewrite length_map, length_seq.
  - apply Forall_forall. intros i Hi. apply in_map_iff in Hi.
    destruct Hi as [j [<- _]]. destruct (Hu j). now apply uniform_index_lt.
Qed.

Lemma SampleRandomSequence_index_range (u : Q) (n k : nat) :
  (1 <= n)%nat ->
  length (utils.SampleRandomSequence_index u n k) = k
  /\ Forall (fun i => (i < n)%nat) (utils.SampleRandomSequence_index u n k).
Proof.
  intros Hn. unfold utils.SampleRandomSequence_index. split.
  - now rewrite length_map, length_seq.
  - apply Forall_forall. intros i Hi. apply in_map_iff in Hi.
    destruct Hi as [j [<- _]]. lia.
Qed.

Lemma SampleRandomSequence_index_block (u : Q) (n k : nat) :
  (0 <= u)%Q -> (u < 1)%Q -> (k <= n)%nat ->
  let start := utils.uniform_index u (n - k + 1) in
  (start <= n - k)%nat
  /\ utils.SampleRandomSequence_index u n k = seq start k.
Proof.
  intros H0 H1 Hk start.
  assert (Hs : (start < n - k + 1)%nat) by (apply uniform_index_lt; [| |lia]; assumption).
  split; [lia|].
  unfold utils.SampleRandomSequence_index. fold start.
  rewrite <- (map_add_seq start k). apply map_ext_in. intros j Hj.
  apply in_seq in Hj. lia.
Qed.

Lemma map_min_seq_low (m n : nat) :
  (n <= S m)%nat ->
  map (fun j => Nat.min (0 + j) m) (seq 0 n) = seq 0 n.
Proof.
  intros H. rewrite <- (map_id (seq 0 n)) at 2.
  apply map_ext_in. intros j Hj. apply in_seq in Hj. lia.
Qed.

Lemma map_min_seq_high (m s k : nat) :
  (m <= s)%nat ->
  map (fun j => Nat.min (0 + j) m) (seq s k) = repeat m k.
Proof.
  revert s. induction k as [|k IH]; intros s H; [reflexivity|].
  cbn [seq map repeat]. f_equal; [lia|]. apply IH. lia.
Qed.

(** A video shorter than the target count: the contiguous variant starts at
    0, reads the declared frames in order and then the last of them again. *)
Lemma SampleRandomSequence_index_short (u : Q) (n k : nat) :
  (0 <= u)%Q -> (u < 1)%Q -> (1 <= n <= k)%nat ->
  utils.uniform_index u (n - k + 1) = 0%nat
  /\ utils.SampleRandomSequence_index u n k
     = seq 0 n ++ repeat (n - 1)%nat (k - n).
Proof.
  intros H0 H1 [Hn Hk].
  assert (E : utils.uniform_index u (n - k + 1) = 0%nat).
  { replace (n - k + 1)%nat with 1%nat by lia.
    pose proof (uniform_index_lt u 1 H0 H1 (le_n 1)). lia. }
  split; [exact E|]. unfold utils.SampleRandomSequence_index. rewrite E.
  cbn zeta. replace k with (n + (k - n))%nat at 1 by lia.
  rewrite seq_app, map_app. f_equal.
  - apply map_min_seq_low. lia.
  - apply map_min_seq_high. lia.
Qed.

Lemma map_nth_firstn {A : Type} (d : A) (x : list A) (n : nat) :
  (n <= length x)%nat -> map (fun i => nth i x d) (seq 0 n) = firstn n x.
Proof.
  revert x. induction n as [|n IH]; intros x H; [reflexivity|].
  destruct x as [|a x]; [cbn [length] in H; lia|].
  cbn [seq map firstn nth]. f_equal.
  rewrite <- seq_shift, map_map. cbn [nth]. apply IH.
  cbn [length] in H. lia.
Qed.

Lemma gather_short (x : video) (n k : nat) :
  (1 <= n <= length x)%nat ->
  utils.gather x (seq 0 n ++ repeat (n - 1)%nat (k - n))
  = Ok (firstn n x ++ repeat (nth (n - 1) x []) (k - n)).
Proof.
  intros [Hn Hx]. rewrite gather_ok.
  - now rewrite map_app, map_repeat, map_nth_firstn.
  - apply Forall_app. split.
    + apply Forall_forall. intros i Hi. apply in_seq in Hi. lia.
    + apply Forall_forall. intros i Hi. apply repeat_spec in Hi. lia.
Qed.

(** C7, as amended, on the sampling utilities as the specification words
    them.  For a video with at least one declared frame, and no more declared
    frames than frame slots, and any target count [k], both variants return
    exactly [k] frames and read only indices below the declared frame count.
    When [k] is at most the frame count, the contiguous variant reads the
    consecutive indices [start .. start+k-1] with [start] in
    [0, frame_count - k], each start being drawn on an interval of variates
    of the same length.  When the frame count is at most [k], the start is 0,
    the indices are [0 .. frame_count-1] followed by [frame_count-1] again
    and again, and the frames returned are the declared frames followed by
    copies of the last declared frame. *)
Theorem random_sampling_in_range (x : video) (n k : nat) :
  (1 <= n <= length x)%nat ->
  (forall u : nat -> Q, (forall j, (0 <= u j)%Q /\ (u j < 1)%Q) ->
     Forall (fun i => (i < n)%nat) (utils.SampleRandomFrames_index u n k)
     /\ exists fs, utils.SampleRandomFrames u x n k = Ok fs /\ length fs = k)
  /\ (forall u : Q, (0 <= u)%Q -> (u < 1)%Q ->
     Forall (fun i => (i < n)%nat) (utils.SampleRandomSequence_index u n k)
     /\ (exists fs, utils.SampleRandomSequence u x n k = Ok fs /\ length fs = k)
     /\ ((k <= n)%nat ->
         let start := utils.uniform_index u (n - k + 1) in
         (start <= n - k)%nat
         /\ utils.SampleRandomSequence_index u n k = seq start k
         /\ forall i : nat,
              start = i
              <-> (inject_Z (Z.of_nat i) <= u * inject_Z (Z.of_nat (n - k + 1))
                   /\ u * inject_Z (Z.of_nat (n - k + 1))
                      < inject_Z (Z.of_nat i + 1))%Q)
     /\ ((n <= k)%nat ->
         utils.uniform_index u (n - k + 1) = 0%nat
         /\ utils.SampleRandomSequence_index u n k
            = seq 0 n ++ repeat (n - 1)%nat (k - n)
         /\ utils.SampleRandomSequence u x n k
            = Ok (firstn n x ++ repeat (nth (n - 1) x []) (k - n)))).
Proof.
  intros [Hn Hx].
  assert (Hread : forall index,
             Forall (fun i => (i < n)%nat) index ->
             Forall (fun i => (i < length x)%nat) index).
  { intros index H. eapply Forall_impl; [|exact H]. cbn beta. intros; lia. }
  split.
  - intros u Hu.
    destruct (SampleRandomFrames_index_range u n k Hu Hn) as [Hl Hr].
    split; [exact Hr|]. unfold utils.SampleRandomFrames.
    rewrite (gather_ok x _ (Hread _ Hr)). eexists. split; [reflexivity|].
    now rewrite length_map.
  - intros u H0 H1.
    destruct (SampleRandomSequence_index_range u n k Hn) as [Hl Hr].
    split; [exact Hr|]. split; [|split].
    + unfold utils.SampleRandomSequence.
      rewrite (gather_ok x _ (Hread _ Hr)). eexists. split; [reflexivity|].
      now rewrite length_map.
    + intros Hk start.
      destruct (SampleRandomSequence_index_block u n k H0 H1 Hk) as [Hs Hb].
      split; [exact Hs|]. split; [exact Hb|].
      intros i. now apply uniform_index_interval.
    + intros Hk.
      destruct (SampleRandomSequence_index_short u n k H0 H1 (conj Hn Hk))
        as [Hs Hi].
      split; [exact Hs|]. split; [exact Hi|].
      unfold utils.SampleRandomSequence. rewrite Hi.
      now apply gather_short.
Qed.

Lemma random_sampling_in_range_witness :
  (1 <= 2 <= length [[1]; [2]; [0]])%nat
  /\ (0 <= 1 # 2)%Q /\ (1 # 2 < 1)%Q /\ (2 <= 4)%nat
  /\ utils.SampleRandomSequence (1 # 2) [[1]; [2]; [0]] 2 4
     = Ok (firstn 2 [[1]; [2]; [0]] ++ repeat (nth (2 - 1) [[1]; [2]; [0]] [])
                                              (4 - 2)).
Proof.
  assert (Hx : (1 <= 2 <= length [[1]; [2]; [0]])%nat) by (cbn [length]; lia).
  assert (H0 : (0 <= 1 # 2)%Q) by discriminate.
  assert (H1 : (1 # 2 < 1)%Q) by reflexivity.
  assert (Hk : (2 <= 4)%nat) by lia.
  split; [exact Hx|]. split; [exact H0|]. split; [exact H1|].
  split; [exact Hk|].
  destruct (proj2 (random_sampling_in_range [[1]; [2]; [0]] 2 4 Hx) (1 # 2) H0 H1)
    as [_ [_ [_ Hshort]]].
  exact (proj2 (proj2 (Hshort Hk))).
Defined.

(** C7 as stated asks too much in three cases.  Three frames read below a
    frame count of 2 cannot have strictly increasing indices, and the
    contiguous variant repeats the last declared frame.  With no declared
    frame at all, a frame is read all the same, at an index that is not
    below the frame count.  And with more declared frames than the video has
    slots, an index can fall beyond the slots and no frames are returned. *)
Lemma random_sequence_repeats_last_frame :
  utils.SampleRandomSequence_index 0 2 3 = [0; 1; 1]%nat
  /\ ~ (exists start, utils.SampleRandomSequence_index 0 2 3 = seq start 3)
  /\ (forall index, Forall (fun i => (i < 2)%nat) index ->
                    ~ (exists start, index = seq start 3))
  /\ utils.SampleRandomFrames_index (fun _ => 0%Q) 0 1 = [0%nat]
  /\ ~ Forall (fun i => (i < 0)%nat)
              (utils.SampleRandomFrames_index (fun _ => 0%Q) 0 1)
  /\ utils.SampleRandomFrames (fun _ => 1 # 2) [[1]] 2 1 = Err InvalidShape.
Proof.
  assert (E : utils.SampleRandomSequence_index 0 2 3 = [0; 1; 1]%nat)
    by reflexivity.
  split; [exact E|]. split; [|split; [|split; [|split]]].
  - rewrite E. intros [start H]. cbn [seq] in H. inversion H; lia.
  - intros index Hi [start ->]. cbn [seq] in Hi.
    inversion Hi as [|? ? _ Hi1]. inversion Hi1 as [|? ? _ Hi2].
    inversion Hi2. lia.
  - reflexivity.
  - intros H. inversion H. lia.
  - reflexivity.
Qed.

(** ** C4: permuting the padding region *)

Section LstmFacts.
Variable stacked_lstm : list R -> frame -> list R.

Lemma dynamic_rnn_frozen (x : video) (t n : nat) (st : list R) :
  (n <= t)%nat -> LstmModel.dynamic_rnn_from stacked_lstm t x n st = st.
Proof.
  revert t st. induction x as [|fr x IH]; intros t st H; cbn [LstmModel.dynamic_rnn_from].
  - reflexivity.
  - destruct (Nat.ltb_spec t n) as [Hlt|_]; [lia|]. apply IH. lia.
Qed.

Lemma dynamic_rnn_reads_declared_frames (x x' : video) (t n : nat) (st : list R) :
  firstn (n - t) x = firstn (n - t) x' ->
  LstmModel.dynamic_rnn_from stacked_lstm t x n st
  = LstmModel.dynamic_rnn_from stacked_lstm t x' n st.
Proof.
  destruct (Nat.le_gt_cases n t) as [Hge|Hlt].
  { intros _. now rewrite !dynamic_rnn_frozen. }
  revert x' t st Hlt. induction x as [|fr x IH]; intros x' t st Hlt H.
  - destruct x' as [|fr' x']; [reflexivity|].
    replace (n - t)%nat with (S (n - S t)) in H by lia. discriminate.
  - replace (n - t)%nat with (S (n - S t)) in H by lia.
    destruct x' as [|fr' x']; [discriminate|].
    cbn [firstn] in H. injection H as Hfr Htl. subst fr'.
    cbn [LstmModel.dynamic_rnn_from].
    destruct (Nat.le_gt_cases n (S t)) as [Hge|Hlt'].
    + now rewrite !dynamic_rnn_frozen.
    + now apply IH.
Qed.
End LstmFacts.

(** ** Sampling reads the declared frames only *)

Lemma gather_reads_declared_frames (x x' : video) (n : nat) (index : list nat) :
  firstn n x = firstn n x' ->
  Forall (fun i => (i < n)%nat) index ->
  utils.gather x index = utils.gather x' index.
Proof.
  intros Hf Hi. unfold utils.gather. apply mapM_ext. intros i Hin.
  rewrite Forall_forall in Hi. specialize (Hi i Hin).
  assert (E : forall y : video, nth_error y i = nth_error (firstn n y) i).
  { intros y. rewrite nth_error_firstn.
    destruct (Nat.ltb_spec i n) as [_|]; [reflexivity | lia]. }
  now rewrite (E x), (E x'), Hf.
Qed.

Section DbofFacts.
Variable u_frames : nat -> nat -> Q.
Variable u_sequence : nat -> Q.
Hypothesis u_frames_unit : forall i j, (0 <= u_frames i j)%Q /\ (u_frames i j < 1)%Q.

Lemma sample_reads_declared_frames (l : DbofModel.locals) (i : nat)
  (x x' : video) (n : nat) :
  (1 <= n)%nat -> firstn n x = firstn n x' ->
  DbofModel.sample u_frames u_sequence l i x n
  = DbofModel.sample u_frames u_sequence l i x' n.
Proof.
  intros Hn Hf. unfold DbofModel.sample.
  destruct (truthy (DbofModel.l_random_frames l)).
  - apply (gather_reads_declared_frames x x' n); [exact Hf|].
    now apply SampleRandomFrames_index_range.
  - apply (gather_reads_declared_frames x x' n); [exact Hf|].
    now apply SampleRandomSequence_index_range.
Qed.

Lemma sample_batch_from (l : DbofModel.locals) (s len : nat)
  (N : list nat) (X X' : batch) :
  Forall (fun n => (1 <= n)%nat) N ->
  batch_padding_permuted N X X' ->
  mapM (fun p => match p with
                 | (i, x, n) => DbofModel.sample u_frames u_sequence l i x n
                 end)
       (combine (combine (seq s len) X) N)
  = mapM (fun p => match p with
                   | (i, x, n) => DbofModel.sample u_frames u_sequence l i x n
                   end)
         (combine (combine (seq s len) X') N).
Proof.
  intros HN H. revert s len HN.
  induction H as [|n x x' N X X' [Hf _] _ IH]; intros s len HN.
  - now destruct (seq s len).
  - destruct len as [|len]; [reflexivity|].
    cbn [seq combine mapM]. inversion HN as [|? ? Hn HN']. subst.
    rewrite (sample_reads_declared_frames l s x x' n Hn Hf).
    now rewrite (IH (S s) len HN').
Qed.

Lemma batch_padding_permuted_length (N : list nat) (X X' : batch) :
  batch_padding_permuted N X X' -> length X = length X'.
Proof. induction 1; cbn [length]; congruence. Qed.

Lemma dbof_create_model_padding (FLAGS : flags) (feature_size : nat)
  (batch_norm : string -> bool -> list (list R) -> list (list R))
  (cw : matrix) (cb : vector) (hw : matrix) (hb : vector)
  (classifier : list R -> list R) (a : DbofModel.arguments)
  (N : list nat) (X X' : batch) :
  Forall (fun n => (1 <= n)%nat) N ->
  batch_padding_permuted N X X' ->
  DbofModel.create_model FLAGS feature_size batch_norm cw cb hw hb classifier
    u_frames u_sequence a X N
  = DbofModel.create_model FLAGS feature_size batch_norm cw cb hw hb classifier
      u_frames u_sequence a X' N.
Proof.
  intros HN H. unfold DbofModel.create_model, DbofModel.sample_batch.
  rewrite <- (batch_padding_permuted_length N X X' H).
  now rewrite (sample_batch_from _ 0 (length X) N X X' HN H).
Qed.
End DbofFacts.

(** ** The convolutional aggregator reads the padding region *)

Lemma nth_map_seq (f : nat -> R) (n c : nat) :
  (c < n)%nat -> nth c (map f (seq 0 n)) 0 = f c.
Proof.
  intros H. rewrite (nth_indep _ 0 (f 0%nat)) by (now rewrite length_map, length_seq).
  rewrite map_nth, seq_nth by exact H. reflexivity.
Qed.

Lemma combine_map_l {A B C : Type} (g : A -> B) (l : list A) (m : list C) :
  combine (map g l) m = map (fun q => (g (fst q), snd q)) (combine l m).
Proof.
  revert m. induction l as [|a l IH]; intros [|c m]; cbn [map combine];
    try reflexivity.
  now rewrite IH.
Qed.

Lemma pooled_channels (feature_size : nat) (W : nat -> nat -> nat -> nat -> R)
  (b : nat -> vector) (filter_size num_filter : nat) (x : video) (fb : list R) :
  (1 <= filter_size <= length x)%nat ->
  CnnModel.frame_bool (length x - filter_size + 1) x = Ok fb ->
  CnnModel.pooled feature_size W b filter_size num_filter x
  = Ok (map (fun c =>
               Rsum (map (fun q =>
                            tanh (CnnModel.conv_at feature_size W filter_size
                                    (fst q) c + b filter_size c) * snd q)
                         (combine (windows filter_size x) fb)))
            (seq 0 num_filter)).
Proof.
  intros [H1 H2] Hfb. unfold CnnModel.pooled, CnnModel.h, CnnModel.conv.
  destruct (Nat.leb_spec 1 filter_size) as [_|]; [|lia].
  destruct (Nat.leb_spec filter_size (length x)) as [_|]; [|lia].
  cbn [andb bind]. rewrite !length_map, length_windows by exact H1.
  replace (length x + 1 - filter_size)%nat with (length x - filter_size + 1)%nat
    by lia.
  rewrite Hfb. cbn [bind]. f_equal. unfold weighted_sum.
  apply map_ext_in. intros c Hc. apply in_seq in Hc.
  rewrite map_map, combine_map_l, map_map. f_equal.
  apply map_ext. intros q. cbn [fst snd].
  rewrite nth_map_seq by lia. rewrite nth_map_seq by lia. reflexivity.
Qed.

Lemma middle_frame_filter_reads (win : list frame) :
  CnnModel.conv_at 1 middle_frame_filter 3 win 0
  = nth 0 (nth 1 win []) 0.
Proof.
  unfold CnnModel.conv_at, middle_frame_filter.
  cbn [seq map Rsum fold_right Nat.eqb andb]. ring.
Qed.

Lemma tanh_0 : tanh 0 = 0.
Proof.
  unfold tanh, sinh. rewrite Ropp_0, exp_0. unfold Rdiv. ring.
Qed.

Lemma tanh_1_pos : 0 < tanh 1.
Proof.
  unfold tanh, sinh, cosh.
  pose proof (exp_pos 1). pose proof (exp_pos (Ropp 1)).
  assert (exp (Ropp 1) < exp 1) by (apply exp_increasing; lra).
  apply Rdiv_lt_0_compat; lra.
Qed.

Lemma app_inj_length {A : Type} (l1 l1' l2 l2' : list A) :
  length l1 = length l1' -> l1 ++ l2 = l1' ++ l2' -> l1 = l1' /\ l2 = l2'.
Proof.
  revert l1'. induction l1 as [|a l1 IH]; intros [|a' l1'] Hl H;
    try discriminate.
  - now split.
  - cbn [app] in H. injection H as Ha Ht. cbn [length] in Hl.
    destruct (IH l1' ltac:(lia) Ht) as [-> ->]. now subst.
Qed.

Lemma padded_video_permuted_padding :
  padding_permuted 1 padded_video padded_video_permuted.
Proof.
  split; [reflexivity|]. cbn [padded_video padded_video_permuted skipn app].
  apply perm_swap.
Qed.

Lemma padded_video_frame_bool :
  CnnModel.frame_bool (length padded_video - 3 + 1) padded_video
  = Ok (map (fun a => a / 2) ([1; 1; 0] ++ repeat 0 15)).
Proof.
  unfold CnnModel.frame_bool, padded_video.
  rewrite frames_bool_map, map_app, map_repeat. cbn [map].
  rewrite mask_of_one, mask_of_zero.
  change (firstn _ _) with ([1; 1; 0] ++ repeat 0 15).
  unfold normalize.
  assert (E : Rsum ([1; 1; 0] ++ repeat 0 15) = 2).
  { rewrite Rsum_app, Rsum_repeat. cbn [Rsum fold_right]. lra. }
  rewrite E. apply vdiv_ok. lra.
Qed.

Lemma padded_video_permuted_frame_bool :
  CnnModel.frame_bool (length padded_video_permuted - 3 + 1) padded_video_permuted
  = Ok (map (fun a => a / 2) ([1; 0; 1] ++ repeat 0 15)).
Proof.
  unfold CnnModel.frame_bool, padded_video_permuted.
  rewrite frames_bool_map, map_app, map_repeat. cbn [map].
  rewrite mask_of_one, mask_of_zero.
  change (firstn _ _) with ([1; 0; 1] ++ repeat 0 15).
  unfold normalize.
  assert (E : Rsum ([1; 0; 1] ++ repeat 0 15) = 2).
  { rewrite Rsum_app, Rsum_repeat. cbn [Rsum fold_right]. lra. }
  rewrite E. apply vdiv_ok. lra.
Qed.

Ltac eval_channel :=
  cbn [windows firstn length Nat.leb app repeat combine map fst snd nth
       Rsum fold_right];
  rewrite ?Rplus_0_r, ?tanh_0.

Lemma padded_video_channel :
  exists p, CnnModel.pooled 1 middle_frame_filter (fun _ _ => 0) 3 300 padded_video
            = Ok p
            /\ nth 0 p 0 = tanh 1 / 2.
Proof.
  eexists. split.
  - apply pooled_channels; [cbn [padded_video length app repeat]; lia|].
    apply padded_video_frame_bool.
  - rewrite nth_map_seq by lia.
    erewrite map_ext; [|intros q; rewrite middle_frame_filter_reads; reflexivity].
    unfold padded_video. eval_channel. lra.
Qed.

Lemma padded_video_permuted_channel :
  exists p, CnnModel.pooled 1 middle_frame_filter (fun _ _ => 0) 3 300
              padded_video_permuted = Ok p
            /\ nth 0 p 0 = 0.
Proof.
  eexists. split.
  - apply pooled_channels; [cbn [padded_video_permuted length app repeat]; lia|].
    apply padded_video_permuted_frame_bool.
  - rewrite nth_map_seq by lia.
    erewrite map_ext; [|intros q; rewrite middle_frame_filter_reads; reflexivity].
    unfold padded_video_permuted. eval_channel. lra.
Qed.

Lemma on_batch_padding {A : Type} (f : video -> nat -> A) :
  (forall x x' n, padding_permuted n x x' -> f x n = f x' n) ->
  forall N X X', batch_padding_permuted N X X' ->
                 on_batch f X N = on_batch f X' N.
Proof.
  intros Hf N X X' H. unfold on_batch.
  induction H as [|n x x' N X X' Hx _ IH]; [reflexivity|].
  cbn [combine map fst snd]. now rewrite (Hf x x' n Hx), IH.
Qed.

(** C4, as amended.  Permuting the frame entries of a video from its
    declared frame count on leaves unchanged the state and the output of the
    recurrent model, video by video and so for every batch, and the output of
    the DBoF model when every video of the batch declares at least one frame
    (variates in [0, 1)): neither reads a slot of the padding region. *)
Theorem padding_permutation_invariance :
  (forall FLAGS stacked_lstm classifier,
      let model := LstmModel.create_model FLAGS stacked_lstm classifier in
      (forall x x' n, padding_permuted n x x' ->
         LstmModel.state FLAGS stacked_lstm x n
         = LstmModel.state FLAGS stacked_lstm x' n
         /\ model x n = model x' n)
      /\ (forall N X X', batch_padding_permuted N X X' ->
                         on_batch model X N = on_batch model X' N))
  /\ (forall FLAGS feature_size batch_norm cw cb hw hb classifier
             u_frames u_sequence a N X X',
      (forall i j, (0 <= u_frames i j)%Q /\ (u_frames i j < 1)%Q) ->
      Forall (fun n => (1 <= n)%nat) N ->
      batch_padding_permuted N X X' ->
      DbofModel.create_model FLAGS feature_size batch_norm cw cb hw hb
        classifier u_frames u_sequence a X N
      = DbofModel.create_model FLAGS feature_size batch_norm cw cb hw hb
          classifier u_frames u_sequence a X' N).
Proof.
  split.
  - intros FLAGS stacked_lstm classifier model.
    assert (V : forall x x' n, padding_permuted n x x' ->
                  LstmModel.state FLAGS stacked_lstm x n
                  = LstmModel.state FLAGS stacked_lstm x' n).
    { intros x x' n [Hf _]. unfold LstmModel.state.
      apply dynamic_rnn_reads_declared_frames. now rewrite Nat.sub_0_r. }
    assert (M : forall x x' n, padding_permuted n x x' -> model x n = model x' n).
    { intros x x' n H. unfold model, LstmModel.create_model.
      now rewrite (V x x' n H). }
    split; [|now apply on_batch_padding].
    intros x x' n H. split; [now apply V | now apply M].
  - intros FLAGS feature_size batch_norm cw cb hw hb classifier
           u_frames u_sequence a N X X' Hu HN H.
    now apply dbof_create_model_padding.
Qed.

Lemma padding_permutation_invariance_witness :
  padding_permuted 1 [[1]; [2]; [3]] [[1]; [3]; [2]]
  /\ LstmModel.state default_flags (fun st fr => fr ++ st) [[1]; [2]; [3]] 1
     = LstmModel.state default_flags (fun st fr => fr ++ st) [[1]; [3]; [2]] 1.
Proof.
  assert (H : padding_permuted 1 [[1]; [2]; [3]] [[1]; [3]; [2]]).
  { split; [reflexivity|]. cbn [skipn]. apply perm_swap. }
  split; [exact H|].
  destruct padding_permutation_invariance as [Hlstm _].
  destruct (Hlstm default_flags (fun st fr => fr ++ st) (fun v => v)) as [Hv _].
  exact (proj1 (Hv _ _ 1%nat H)).
Defined.

Lemma dbof_sample_without_frames :
  let l := DbofModel.bind_locals default_flags DbofModel.no_arguments in
  padding_permuted 0 [[1]; [2]] [[2]; [1]]
  /\ DbofModel.sample (fun _ _ => 0%Q) (fun _ => 0%Q) l 0 [[1]; [2]] 0
     = Ok (repeat [1] 30)
  /\ DbofModel.sample (fun _ _ => 0%Q) (fun _ => 0%Q) l 0 [[2]; [1]] 0
     = Ok (repeat [2] 30).
Proof.
  split; [|split]; [|reflexivity|reflexivity].
  split; [reflexivity|]. cbn [skipn]. apply perm_swap.
Qed.

(** C4 as stated fails for every aggregator but the recurrent one.  The
    convolutional aggregator convolves over the padding region too: with one
    declared frame and a padding region that holds a nonzero frame, moving
    that frame from slot 1 to slot 2 changes channel 0 of the filter of
    width 3 from [tanh 1 / 2] to [0].  The DBoF model on a video that
    declares no frame reads slot 0 all the same, which then lies in the
    padding region.  The logistic, attention and mixture aggregators add all
    the slots of a video, the padding region included, in float32, where a
    sum depends on the order of its summands: after one declared frame [0],
    the padding region [2^24], [1], [-2^24] and the same region in the
    opposite order give the float32 sum over the frame axis different
    values, whether the summands are taken from the first or from the
    last. *)
Lemma padding_region_is_read :
  (padding_permuted 1 padded_video padded_video_permuted
   /\ CnnModel.h_drop 1 middle_frame_filter (fun _ _ => 0) padded_video
      <> CnnModel.h_drop 1 middle_frame_filter (fun _ _ => 0)
           padded_video_permuted)
  /\ (let l := DbofModel.bind_locals default_flags DbofModel.no_arguments in
      padding_permuted 0 [[1]; [2]] [[2]; [1]]
      /\ DbofModel.sample (fun _ _ => 0%Q) (fun _ => 0%Q) l 0 [[1]; [2]] 0
         <> DbofModel.sample (fun _ _ => 0%Q) (fun _ => 0%Q) l 0 [[2]; [1]] 0)
  /\ (let x := [float32_of 0 0; float32_of 1 24; float32_of 1 0;
                float32_of (-1) 24] in
      let x' := [float32_of 0 0; float32_of (-1) 24; float32_of 1 0;
                 float32_of 1 24] in
      firstn 1 x = firstn 1 x'
      /\ Permutation (skipn 1 x) (skipn 1 x')
      /\ float32_sum_left x <> float32_sum_left x'
      /\ float32_sum_right x <> float32_sum_right x').
Proof.
  split; [|split].
  3:{ cbn zeta. split; [reflexivity|].
      split; [cbn [skipn]; apply (Permutation_rev [_; _; _])|].
      split; vm_compute; discriminate. }
  2:{ destruct dbof_sample_without_frames as (Hp & E1 & E2).
      cbn zeta. split; [exact Hp|]. rewrite E1, E2.
      intros H. injection H as H. lra. }
  split; [exact padded_video_permuted_padding|].
  rewrite !h_drop_unfold.
  assert (A : forall k, (k <= 19)%nat ->
                Exists active (firstn (20 - k) padded_video)
                /\ Exists active (firstn (20 - k) padded_video_permuted)).
  { intros k Hk. replace (20 - k)%nat with (S (19 - k)) by lia.
    split; apply Exists_cons_hd, active_one. }
  assert (P : forall w nf, (1 <= w <= 20)%nat ->
     (exists p, CnnModel.pooled 1 middle_frame_filter (fun _ _ => 0) w nf
                  padded_video = Ok p)
     /\ (exists p, CnnModel.pooled 1 middle_frame_filter (fun _ _ => 0) w nf
                     padded_video_permuted = Ok p)).
  { intros w nf Hw. destruct (A (w - 1)%nat ltac:(lia)) as [A1 A2].
    split; apply pooled_ok;
      try (change (length padded_video) with 20%nat);
      try (change (length padded_video_permuted) with 20%nat);
      try lia.
    - now replace (20 - w + 1)%nat with (20 - (w - 1))%nat by lia.
    - now replace (20 - w + 1)%nat with (20 - (w - 1))%nat by lia. }
  destruct (P 1 400 ltac:(lia))%nat as [[p1 E1] [q1 F1]].
  destruct padded_video_channel as [p3 [E3 Hp3]].
  destruct padded_video_permuted_channel as [q3 [F3 Hq3]].
  destruct (P 5 200 ltac:(lia))%nat as [[p5 E5] [q5 F5]].
  destruct (P 10 100 ltac:(lia))%nat as [[p10 E10] [q10 F10]].
  destruct (P 20 100 ltac:(lia))%nat as [[p20 E20] [q20 F20]].
  rewrite E1, E3, E5, E10, E20, F1, F3, F5, F10, F20. cbn [bind].
  intros H. injection H as H.
  apply app_inj_length in H.
  - destruct H as [_ H]. apply app_inj_length in H.
    + destruct H as [H _]. rewrite H, Hq3 in Hp3.
      pose proof tanh_1_pos. lra.
    + now rewrite (pooled_length _ _ _ _ _ _ _ E3), (pooled_length _ _ _ _ _ _ _ F3).
  - now rewrite (pooled_length _ _ _ _ _ _ _ E1), (pooled_length _ _ _ _ _ _ _ F1).
Qed.

(** * Further properties of the models *)

(** ** Inactive slots are zero frames *)

Lemma Rsum_abs_zero (fr : frame) :
  Rsum (map Rabs fr) = 0 -> Forall (fun a => a = 0) fr.
Proof.
  induction fr as [|a fr IH]; intros H; [constructor|].
  cbn [map] in H. rewrite Rsum_cons in H.
  pose proof (Rabs_pos a) as Ha. pose proof (Rsum_abs_nonneg fr) as Hfr.
  constructor.
  - destruct (Req_dec a 0) as [E|E]; [exact E|].
    pose proof (Rabs_pos_lt a E). lra.
  - apply IH. lra.
Qed.

Lemma inactive_entry (fr : frame) (j : nat) : ~ active fr -> nth j fr 0 = 0.
Proof.
  intros H.
  assert (Hz : Forall (fun a => a = 0) fr).
  { apply Rsum_abs_zero. destruct (Req_dec (Rsum (map Rabs fr)) 0) as [E|E];
      [exact E | contradiction]. }
  destruct (Nat.lt_ge_cases j (length fr)) as [Hj|Hj].
  - rewrite Forall_forall in Hz. apply Hz. now apply nth_In.
  - now apply nth_overflow.
Qed.

(** ** Average pooling and zero padding *)

Lemma zero_frame_inactive (fr : frame) :
  Forall (fun a => a = 0) fr -> ~ active fr.
Proof. intros H Ha. apply Ha. now apply Rsum_abs_of_zeros. Qed.

Lemma Rsum_column_inactive (j : nat) (l : video) :
  Forall (fun fr => ~ active fr) l -> Rsum (map (fun fr => nth j fr 0) l) = 0.
Proof.
  induction 1 as [|fr l Hfr _ IH]; [reflexivity|].
  cbn [map]. rewrite Rsum_cons, IH, (inactive_entry fr j Hfr). lra.
Qed.

Lemma reduce_sum_frames_app (feature_size : nat) (x y : video) :
  Forall (fun fr => ~ active fr) y ->
  reduce_sum_frames feature_size (x ++ y) = reduce_sum_frames feature_size x.
Proof.
  intros Hy. unfold reduce_sum_frames. apply map_ext. intros j.
  rewrite map_app, Rsum_app. unfold frame.
  rewrite (Rsum_column_inactive j y Hy). lra.
Qed.

Lemma zero_padding_inactive (n : nat) (x : video) :
  Forall (fun fr => Forall (fun a => a = 0) fr) (skipn n x) ->
  Forall (fun fr => ~ active fr) (skipn n x).
Proof.
  intros H. eapply Forall_impl; [|exact H]. apply zero_frame_inactive.
Qed.

(** X2.  With zero frames in the padding region, the logistic model pools the
    declared frames only: for a declared frame count other than zero its
    average is the sum of the first [num_frames] frames divided by
    [num_frames], and the model gives what it gives on the video cut to its
    declared frames. *)
Theorem logistic_pools_declared_frames (feature_size vocab_size : nat)
  (weights : matrix) (biases : vector) (x : video) (n : nat) :
  Forall (fun fr => Forall (fun a => a = 0) fr) (skipn n x) ->
  (n <> 0%nat ->
   FrameLevelLogisticModel.avg_pooled feature_size x n
   = Ok (map (fun j => Rsum (map (fun fr => nth j fr 0) (firstn n x)) / INR n)
             (seq 0 feature_size)))
  /\ FrameLevelLogisticModel.create_model feature_size vocab_size weights
       biases x n
     = FrameLevelLogisticModel.create_model feature_size vocab_size weights
         biases (firstn n x) n.
Proof.
  intros Hpad.
  assert (E : reduce_sum_frames feature_size x
              = reduce_sum_frames feature_size (firstn n x)).
  { rewrite <- (firstn_skipn n x) at 1.
    apply reduce_sum_frames_app, zero_padding_inactive, Hpad. }
  split.
  - intros Hn. unfold FrameLevelLogisticModel.avg_pooled.
    rewrite E, vdiv_ok by (now apply not_0_INR).
    unfold reduce_sum_frames. now rewrite map_map.
  - unfold FrameLevelLogisticModel.create_model,
      FrameLevelLogisticModel.avg_pooled.
    now rewrite E.
Qed.

Lemma logistic_pools_declared_frames_witness :
  Forall (fun fr => Forall (fun a => a = 0) fr) (skipn 1 [[3]; [0]])
  /\ FrameLevelLogisticModel.create_model 1 1 (fun _ _ => 1) (fun _ => 0)
       [[3]; [0]] 1
     = FrameLevelLogisticModel.create_model 1 1 (fun _ _ => 1) (fun _ => 0)
         (firstn 1 [[3]; [0]]) 1.
Proof.
  assert (H : Forall (fun fr => Forall (fun a => a = 0) fr) (skipn 1 [[3]; [0]])).
  { cbn [skipn]. repeat constructor. }
  split; [exact H|].
  exact (proj2 (logistic_pools_declared_frames 1 1 (fun _ _ => 1)
                  (fun _ => 0) [[3]; [0]] 1 H)).
Defined.

(** ** What the attention and mixture models read of a video *)








(** ** The convolutional model on a short video *)

(** X13.  The convolutional model needs at least 20 frame slots: on a
    shorter video the filter of width 20 does not fit, the graph
    construction fails and the model yields nothing. *)
Theorem cnn_needs_twenty_slots (feature_size : nat)
  (W : nat -> nat -> nat -> nat -> R) (b : nat -> vector)
  (classifier : list R -> list R) (x : video) :
  (length x < 20)%nat ->
  CnnModel.conv feature_size W 20 100 x = Err InvalidShape
  /\ CnnModel.pooled feature_size W b 20 100 x = Err InvalidShape
  /\ (exists e, CnnModel.h_drop feature_size W b x = Err e)
  /\ (exists e, CnnModel.create_model feature_size W b classifier x = Err e).
Proof.
  intros HL.
  pose proof (conv_invalid feature_size W 20 100 x HL) as Ec.
  assert (Ep : CnnModel.pooled feature_size W b 20 100 x = Err InvalidShape).
  { unfold CnnModel.pooled, CnnModel.h. now rewrite Ec. }
  assert (Eh : exists e, CnnModel.h_drop feature_size W b x = Err e).
  { rewrite h_drop_unfold, Ep.
    destruct (CnnModel.pooled feature_size W b 1 400 x); cbn [bind]; [|eauto].
    destruct (CnnModel.pooled feature_size W b 3 300 x); cbn [bind]; [|eauto].
    destruct (CnnModel.pooled feature_size W b 5 200 x); cbn [bind]; [|eauto].
    destruct (CnnModel.pooled feature_size W b 10 100 x); cbn [bind]; eauto. }
  split; [exact Ec|]. split; [exact Ep|]. split; [exact Eh|].
  destruct Eh as [e Eh]. exists e.
  unfold CnnModel.create_model, fmap. now rewrite Eh.
Qed.

Lemma cnn_needs_twenty_slots_witness :
  (length [[1]; [2]; [3]] < 20)%nat
  /\ CnnModel.pooled 1 (fun _ _ _ _ => 1) (fun _ _ => 0) 20 100 [[1]; [2]; [3]]
     = Err InvalidShape.
Proof.
  assert (H : (length [[1]; [2]; [3]] < 20)%nat) by (cbn [length]; lia).
  split; [exact H|].
  exact (proj1 (proj2 (cnn_needs_twenty_slots 1 (fun _ _ _ _ => 1)
                         (fun _ _ => 0) (fun v => v) [[1]; [2]; [3]] H))).
Defined.

(** ** The recurrent model reads the declared frames *)

Lemma dynamic_rnn_fold (stacked_lstm : list R -> frame -> list R)
  (x : video) (t n : nat) (st : list R) :
  LstmModel.dynamic_rnn_from stacked_lstm t x n st
  = fold_left stacked_lstm (firstn (n - t) x) st.
Proof.
  revert t st. induction x as [|fr x IH]; intros t st.
  - now rewrite firstn_nil.
  - cbn [LstmModel.dynamic_rnn_from].
    destruct (Nat.ltb_spec t n) as [Hlt|Hge].
    + replace (n - t)%nat with (S (n - S t)) by lia.
      cbn [firstn fold_left]. apply IH.
    + replace (n - t)%nat with 0%nat by lia. cbn [firstn fold_left].
      apply dynamic_rnn_frozen. lia.
Qed.

(** X14.  The recurrent model steps its cell over the declared frames only:
    its state is the cell folded over the first [num_frames] frames from the
    zero state.  So it is the zero state for a declared frame count of zero,
    it is what the model gives on the video cut to its declared frames, and
    two videos that agree on their declared frames give one state, whatever
    their padding regions hold. *)
Theorem lstm_reads_declared_frames (FLAGS : flags)
  (stacked_lstm : list R -> frame -> list R) (x : video) (n : nat) :
  LstmModel.state FLAGS stacked_lstm x n
  = fold_left stacked_lstm (firstn n x) (repeat 0 (LstmModel.state_size FLAGS))
  /\ LstmModel.state FLAGS stacked_lstm x 0
     = repeat 0 (LstmModel.state_size FLAGS)
  /\ LstmModel.state FLAGS stacked_lstm x n
     = LstmModel.state FLAGS stacked_lstm (firstn n x) n
  /\ (forall x', firstn n x = firstn n x' ->
                 LstmModel.state FLAGS stacked_lstm x n
                 = LstmModel.state FLAGS stacked_lstm x' n)
  /\ ((length x <= n)%nat ->
      LstmModel.state FLAGS stacked_lstm x n
      = fold_left stacked_lstm x (repeat 0 (LstmModel.state_size FLAGS))).
Proof.
  unfold LstmModel.state. rewrite !dynamic_rnn_fold, !Nat.sub_0_r.
  split; [reflexivity|]. split; [reflexivity|]. split; [|split].
  - now rewrite firstn_firstn, Nat.min_id.
  - intros x' E. now rewrite dynamic_rnn_fold, Nat.sub_0_r, E.
  - intros HL. now rewrite firstn_all2.
Qed.

(** ** The DBoF activation *)

Lemma relu6_bounds (z : R) : 0 <= DbofModel.relu6 z <= 6.
Proof.
  unfold DbofModel.relu6, Rmin, Rmax.
  destruct (Rle_dec z 0); destruct (Rle_dec _ 6); lra.
Qed.

Lemma map_relu6_bounds (rows : list (list R)) :
  Forall (Forall (fun a => 0 <= a <= 6)) (map (map DbofModel.relu6) rows).
Proof.
  apply Forall_forall. intros row Hrow. apply in_map_iff in Hrow.
  destruct Hrow as [r [<- _]]. apply Forall_forall. intros a Ha.
  apply in_map_iff in Ha. destruct Ha as [z [<- _]]. apply relu6_bounds.
Qed.

(** X15.  What the DBoF model hands its classifier is bounded: whenever the
    activation is produced, each of its entries lies between 0 and 6, with
    batch normalization or without.  Without batch normalization it has one
    row per video of the batch and [hidden_size] entries per row. *)
Theorem dbof_activation_is_bounded (FLAGS : flags) (feature_size : nat)
  (batch_norm : string -> bool -> list (list R) -> list (list R))
  (cw : matrix) (cb : vector) (hw : matrix) (hb : vector)
  (l : DbofModel.locals) (is_training : bool) (sampled : batch)
  (act : list (list R)) :
  DbofModel.activation FLAGS feature_size batch_norm cw cb hw hb l is_training
    sampled = Ok act ->
  Forall (Forall (fun a => 0 <= a <= 6)) act
  /\ (truthy (DbofModel.l_add_batch_norm l) = false ->
      length act = length sampled
      /\ Forall (fun row =>
                   length row
                   = Z.to_nat (py_int (DbofModel.l_hidden1_size l))) act).
Proof.
  unfold DbofModel.activation. intros E.
  match type of E with
  | (bind ?m _ = _) => destruct m as [pooled|e] eqn:Ep
  end; cbn [bind] in E; [|discriminate].
  inversion E as [Hact]. clear E. split.
  - apply map_relu6_bounds.
  - intros Hbn. rewrite Hbn in *. split.
    + rewrite !length_map. apply mapM_length in Ep. rewrite Ep.
      unfold DbofModel.reshape_videos. now rewrite length_map, length_seq.
    + apply Forall_forall. intros row Hrow.
      apply in_map_iff in Hrow. destruct Hrow as [r [<- Hr]].
      apply in_map_iff in Hr. destruct Hr as [r' [<- _]].
      rewrite length_map. unfold DbofModel.add_biases.
      now rewrite length_map, length_seq.
Qed.

Lemma dbof_activation_is_bounded_witness :
  let l :=
    DbofModel.bind_locals flags_without_batch_norm
      {| DbofModel.arg_iterations := PyInt 1;
         DbofModel.arg_add_batch_norm := PyNone;
         DbofModel.arg_sample_random_frames := PyNone;
         DbofModel.arg_cluster_size := PyInt 1;
         DbofModel.arg_hidden_size := PyInt 1;
         DbofModel.arg_is_training := true |} in
  exists act,
    DbofModel.activation flags_without_batch_norm 1 (fun _ _ m => m)
      (fun _ _ => 1) (fun _ => 0) (fun _ _ => 1) (fun _ => 0) l true [[[1]]]
    = Ok act
    /\ Forall (Forall (fun a => 0 <= a <= 6)) act.
Proof.
  intros l.
  assert (E : exists act,
             DbofModel.activation flags_without_batch_norm 1 (fun _ _ m => m)
               (fun _ _ => 1) (fun _ => 0) (fun _ _ => 1) (fun _ => 0) l true
               [[[1]]] = Ok act).
  { eexists. reflexivity. }
  destruct E as [act E]. exists act. split; [exact E|].
  exact (proj1 (dbof_activation_is_bounded flags_without_batch_norm 1
                  (fun _ _ m => m) (fun _ _ => 1) (fun _ => 0) (fun _ _ => 1)
                  (fun _ => 0) l true [[[1]]] act E)).
Defined.

(** ** The highway layer *)

Lemma nth_vmul (a c : list R) (j : nat) :
  length a = length c -> (j < length a)%nat ->
  nth j (vmul a c) 0 = nth j a 0 * nth j c 0.
Proof.
  intros Hl Hj. unfold vmul.
  rewrite (nth_indep _ 0 ((fun p => fst p * snd p) (0, 0)))
    by (rewrite length_map, length_combine; lia).
  rewrite (map_nth (fun p => fst p * snd p)), combine_nth by exact Hl.
  reflexivity.
Qed.

Lemma nth_vadd (a c : list R) (j : nat) :
  length a = length c -> (j < length a)%nat ->
  nth j (vadd a c) 0 = nth j a 0 + nth j c 0.
Proof.
  intros Hl Hj. unfold vadd.
  rewrite (nth_indep _ 0 ((fun p => fst p + snd p) (0, 0)))
    by (rewrite length_map, length_combine; lia).
  rewrite (map_nth (fun p => fst p + snd p)), combine_nth by exact Hl.
  reflexivity.
Qed.

Lemma length_vmul (a c : list R) :
  length a = length c -> length (vmul a c) = length a.
Proof.
  intros H. unfold vmul. rewrite length_map, length_combine. lia.
Qed.

Lemma length_xw_plus_b (n_in n_out : nat) (x : list R) (W : matrix) (b : vector) :
  length (xw_plus_b n_in n_out x W b) = n_out.
Proof. unfold xw_plus_b. now rewrite length_map, length_seq. Qed.

Lemma nth_map_real (f : R -> R) (l : list R) (j : nat) :
  (j < length l)%nat -> nth j (map f l) 0 = f (nth j l 0).
Proof.
  intros Hj. rewrite (nth_indep _ 0 (f 0)) by (now rewrite length_map).
  apply map_nth.
Qed.

Section HighwayFacts.
Variables (output_W : nat -> matrix) (output_b : nat -> vector).
Variables (transform_W : nat -> matrix) (transform_b : nat -> vector).

Lemma highway_layer_ok (idx size_1 size_2 : nat) (input_1 output : list R) :
  length input_1 = size_1 -> length output = size_2 ->
  let cand := map relu (xw_plus_b size_2 size_1 output
                          (output_W idx) (output_b idx)) in
  let gate := map sigmoid (xw_plus_b size_1 size_1 input_1
                             (transform_W idx) (transform_b idx)) in
  exists out,
    Highway.layer output_W output_b transform_W transform_b
      idx size_1 size_2 input_1 output = Ok out
    /\ length out = size_1
    /\ forall j, (j < size_1)%nat ->
         nth j out 0
         = nth j gate 0 * nth j cand 0
           + (1 - nth j gate 0) * nth j input_1 0.
Proof.
  intros H1 H2 cand gate.
  unfold Highway.layer, Highway.candidate, Highway.transform_gate,
    xw_plus_b_checked.
  rewrite H1, H2, !Nat.eqb_refl. cbn [bind]. fold cand. fold gate.
  assert (Lc : length cand = size_1)
    by (unfold cand; now rewrite length_map, length_xw_plus_b).
  assert (Lg : length gate = size_1)
    by (unfold gate; now rewrite length_map, length_xw_plus_b).
  assert (L1 : length (vmul gate cand) = size_1)
    by (rewrite length_vmul; congruence).
  assert (L2 : length (vmul (map (fun t => 1 - t) gate) input_1) = size_1)
    by (rewrite length_vmul; rewrite length_map; congruence).
  eexists. split; [reflexivity|]. split.
  - unfold vadd. rewrite length_map, length_combine. lia.
  - intros j Hj.
    rewrite nth_vadd by lia.
    rewrite !nth_vmul by (rewrite ?length_map; lia).
    rewrite nth_map_real by lia. reflexivity.
Qed.

Lemma highway_layers_ok (idxs : list nat) (size : nat) (input_1 output : list R) :
  length input_1 = size -> length output = size ->
  exists out,
    Highway.layers output_W output_b transform_W transform_b
      idxs size size input_1 output = Ok out
    /\ length out = size.
Proof.
  intros H1. revert output. induction idxs as [|idx rest IH]; intros output H2.
  - exists output. now split.
  - cbn [Highway.layers].
    destruct (highway_layer_ok idx size size input_1 output H1 H2)
      as [out [-> [Hl _]]].
    cbn [bind]. now apply IH.
Qed.
End HighwayFacts.

(** X16.  One highway layer, the default, on inputs of the declared sizes
    returns [size_1] entries, and entry [j] is
    [gate_j * candidate_j + (1 - gate_j) * input_1_j], where the candidate is
    the rectified linear map of [input_2] and the gate the sigmoid of the
    linear map of [input_1]. *)
Theorem highway_layer_mixes (output_W : nat -> matrix) (output_b : nat -> vector)
  (transform_W : nat -> matrix) (transform_b : nat -> vector)
  (input_1 input_2 : list R) (size_1 size_2 : nat) :
  length input_1 = size_1 -> length input_2 = size_2 ->
  let candidate := map relu (xw_plus_b size_2 size_1 input_2
                               (output_W 0%nat) (output_b 0%nat)) in
  let gate := map sigmoid (xw_plus_b size_1 size_1 input_1
                             (transform_W 0%nat) (transform_b 0%nat)) in
  exists out,
    Highway.highway output_W output_b transform_W transform_b
      input_1 input_2 size_1 size_2 1 = Ok out
    /\ length out = size_1
    /\ length candidate = size_1
    /\ length gate = size_1
    /\ forall j, (j < size_1)%nat ->
         nth j out 0
         = nth j gate 0 * nth j candidate 0
           + (1 - nth j gate 0) * nth j input_1 0.
Proof.
  intros H1 H2 candidate gate.
  destruct (highway_layer_ok output_W output_b transform_W transform_b
              0 size_1 size_2 input_1 input_2 H1 H2) as [out [E [Hl Hf]]].
  exists out. split.
  - unfold Highway.highway. cbn [seq Highway.layers]. now rewrite E.
  - split; [exact Hl|].
    split; [unfold candidate; now rewrite length_map, length_xw_plus_b|].
    split; [unfold gate; now rewrite length_map, length_xw_plus_b|].
    exact Hf.
Qed.

Lemma highway_layer_mixes_witness :
  length [1; 2] = 2%nat /\ length [3] = 1%nat
  /\ exists out,
       Highway.highway (fun _ _ _ => 1) (fun _ _ => 0) (fun _ _ _ => 1)
         (fun _ _ => 0) [1; 2] [3] 2 1 1 = Ok out
       /\ length out = 2%nat.
Proof.
  assert (H1 : length [1; 2] = 2%nat) by reflexivity.
  assert (H2 : length [3] = 1%nat) by reflexivity.
  split; [exact H1|]. split; [exact H2|].
  destruct (highway_layer_mixes (fun _ _ _ => 1) (fun _ _ => 0) (fun _ _ _ => 1)
              (fun _ _ => 0) [1; 2] [3] 2 1 H1 H2) as [out [E [Hl _]]].
  exists out. split; [exact E | exact Hl].
Defined.

(** X17.  The highway loop over several layers fits square layers only.
    With no layer it returns [input_2] as it is.  On inputs of the declared
    sizes it succeeds for any number of layers when [size_1 = size_2]; when
    the sizes differ, the second layer multiplies the [size_1] entries of the
    first by a matrix of [size_2] rows and the graph construction fails. *)
Theorem highway_layers_need_square_sizes (output_W : nat -> matrix)
  (output_b : nat -> vector) (transform_W : nat -> matrix)
  (transform_b : nat -> vector) (input_1 input_2 : list R)
  (size_1 size_2 : nat) :
  length input_1 = size_1 -> length input_2 = size_2 ->
  Highway.highway output_W output_b transform_W transform_b
    input_1 input_2 size_1 size_2 0 = Ok input_2
  /\ (size_1 = size_2 ->
      forall layer_size,
      exists out,
        Highway.highway output_W output_b transform_W transform_b
          input_1 input_2 size_1 size_2 layer_size = Ok out
        /\ length out = size_1)
  /\ (size_1 <> size_2 ->
      forall layer_size, (2 <= layer_size)%nat ->
        Highway.highway output_W output_b transform_W transform_b
          input_1 input_2 size_1 size_2 layer_size = Err InvalidShape).
Proof.
  intros H1 H2. split; [reflexivity|]. split.
  - intros E layer_size. unfold Highway.highway. rewrite <- E.
    apply highway_layers_ok; congruence.
  - intros Hne layer_size HL. unfold Highway.highway.
    destruct layer_size as [|[|k]]; try lia.
    cbn [seq Highway.layers].
    destruct (highway_layer_ok output_W output_b transform_W transform_b
                0 size_1 size_2 input_1 input_2 H1 H2) as [out [-> [Hl _]]].
    cbn [bind]. unfold Highway.layer, Highway.candidate, xw_plus_b_checked.
    rewrite Hl. destruct (Nat.eqb_spec size_1 size_2) as [E|_];
      [contradiction | reflexivity].
Qed.

Lemma highway_layers_need_square_sizes_witness :
  length [1; 2] = 2%nat /\ length [3] = 1%nat
  /\ Highway.highway (fun _ _ _ => 1) (fun _ _ => 0) (fun _ _ _ => 1)
       (fun _ _ => 0) [1; 2] [3] 2 1 2 = Err InvalidShape.
Proof.
  assert (H1 : length [1; 2] = 2%nat) by reflexivity.
  assert (H2 : length [3] = 1%nat) by reflexivity.
  split; [exact H1|]. split; [exact H2|].
  destruct (highway_layers_need_square_sizes (fun _ _ _ => 1) (fun _ _ => 0)
              (fun _ _ _ => 1) (fun _ _ => 0) [1; 2] [3] 2 1 H1 H2)
    as (_ & _ & Hne).
  apply Hne; [discriminate | lia].
Defined.

(** ** The predictions of the mixture model *)

Lemma vdiv_length (v : list R) (d : R) (w : list R) :
  vdiv v d = Ok w -> length w = length v.
Proof.
  destruct v as [|a v]; cbn [vdiv].
  - intros H. now inversion H.
  - destruct (Req_dec_T d 0); [discriminate|].
    intros H. injection H as <-. cbn [length]. now rewrite length_map.
Qed.

Lemma half_sum_shape (a c p : list R) :
  half_sum a c = Ok p ->
  (length a = length c /\ length p = length c)
  \/ (length a = 1%nat /\ length p = length c)
  \/ (length c = 1%nat /\ length p = length a).
Proof.
  unfold half_sum.
  destruct (Nat.eqb_spec (length a) (length c)) as [E|_].
  { intros H. injection H as <-. left. split; [exact E|].
    rewrite length_map, length_combine. lia. }
  destruct (Nat.eqb_spec (length a) 1) as [E|_].
  { intros H. injection H as <-. right. left. split; [exact E|].
    now rewrite length_map. }
  destruct (Nat.eqb_spec (length c) 1) as [E|_]; [|discriminate].
  intros H. injection H as <-. right. right. split; [exact E|].
  now rewrite length_map.
Qed.

Lemma half_sum_refused (a c : list R) :
  length a <> length c -> length a <> 1%nat -> length c <> 1%nat ->
  half_sum a c = Err InvalidShape.
Proof.
  intros H1 H2 H3. unfold half_sum.
  destruct (Nat.eqb_spec (length a) (length c)); [contradiction|].
  destruct (Nat.eqb_spec (length a) 1); [contradiction|].
  destruct (Nat.eqb_spec (length c) 1); [contradiction | reflexivity].
Qed.

(** X18.  Line 490 adds the predictions of the video-level classifier to the
    frame-averaged predictions, which have [vocab_size] entries.  With a
    classifier of [vocab_size] predictions, or of one prediction, which is
    broadcast, the mixture model returns [vocab_size] predictions whenever it
    returns any; with a classifier of any other number of predictions, and
    more than one class, it returns none. *)
Theorem mixture_prediction_shapes (feature_size vocab_size : nat)
  (hw : matrix) (hb : vector) (ow : matrix) (ob : vector)
  (classifier : list R -> list R) (width : nat) (x : video) :
  (forall v, length (classifier v) = width) ->
  (forall o, MixLogisticModel.output feature_size vocab_size hw hb ow ob x = Ok o ->
             length o = vocab_size)
  /\ (width = vocab_size \/ width = 1%nat ->
      forall p, MixLogisticModel.create_model feature_size vocab_size hw hb ow
                  ob classifier x = Ok p ->
                length p = vocab_size)
  /\ (width <> vocab_size -> width <> 1%nat -> vocab_size <> 1%nat ->
      forall p, MixLogisticModel.create_model feature_size vocab_size hw hb ow
                  ob classifier x <> Ok p).
Proof.
  intros Hc.
  assert (Ho : forall o,
             MixLogisticModel.output feature_size vocab_size hw hb ow ob x = Ok o ->
             length o = vocab_size).
  { intros o. unfold MixLogisticModel.output, MixLogisticModel.weighted_output.
    destruct (MixLogisticModel.frames_bool_normalized x) as [w|e];
      cbn [bind]; [|discriminate].
    intros H. apply vdiv_length in H. rewrite H.
    unfold weighted_sum. now rewrite length_map, length_seq. }
  split; [exact Ho|]. split.
  - intros Hw p. unfold MixLogisticModel.create_model.
    destruct (MixLogisticModel.videofeatures feature_size hw hb x) as [vf|e];
      cbn [bind]; [|discriminate].
    destruct (MixLogisticModel.output feature_size vocab_size hw hb ow ob x)
      as [o|e] eqn:Eo; cbn [bind]; [|discriminate].
    specialize (Ho o eq_refl). intros H. apply half_sum_shape in H.
    rewrite Hc, Ho in H. lia.
  - intros H1 H2 H3 p. unfold MixLogisticModel.create_model.
    destruct (MixLogisticModel.videofeatures feature_size hw hb x) as [vf|e];
      cbn [bind]; [|discriminate].
    destruct (MixLogisticModel.output feature_size vocab_size hw hb ow ob x)
      as [o|e] eqn:Eo; cbn [bind]; [|discriminate].
    specialize (Ho o eq_refl).
    rewrite half_sum_refused; [discriminate | | |]; rewrite ?Hc, ?Ho; assumption.
Qed.

Lemma mixture_prediction_shapes_witness :
  (forall v : list R, length ((fun _ : list R => [0]) v) = 1%nat)
  /\ forall p, MixLogisticModel.create_model 1 2 (fun _ _ => 1) (fun _ => 0)
                 (fun _ _ => 1) (fun _ => 0) (fun _ => [0]) [[1]; [2]] = Ok p ->
               length p = 2%nat.
Proof.
  assert (H : forall v : list R, length ((fun _ : list R => [0]) v) = 1%nat)
    by reflexivity.
  split; [exact H|].
  exact (proj1 (proj2 (mixture_prediction_shapes 1 2 (fun _ _ => 1) (fun _ => 0)
                         (fun _ _ => 1) (fun _ => 0) (fun _ => [0]) 1
                         [[1]; [2]] H))
               (or_intror eq_refl)).
Defined.

(** ** The shapes of what the pooling models return *)

(** X19.  Whatever the numbers, the pooling models keep their shapes: the
    logistic model returns [vocab_size] predictions whenever it returns any,
    and the state of the attention model and the video features of the
    mixture model, which go to the video-level classifier, have
    [feature_size] entries whenever they are produced. *)
Theorem pooling_models_shapes (feature_size vocab_size : nat) (x : video) :
  (forall weights biases n p,
      FrameLevelLogisticModel.create_model feature_size vocab_size weights
        biases x n = Ok p ->
      length p = vocab_size)
  /\ (forall W b n s,
      AttentionModel.state feature_size W b x n = Ok s ->
      length s = feature_size)
  /\ (forall hw hb vf,
      MixLogisticModel.videofeatures feature_size hw hb x = Ok vf ->
      length vf = feature_size).
Proof.
  split; [|split].
  - intros weights biases n p.
    unfold FrameLevelLogisticModel.create_model.
    destruct (FrameLevelLogisticModel.avg_pooled feature_size x n) as [avg|e];
      cbn [bind]; [|discriminate].
    intros H. injection H as <-. unfold fully_connected.
    now rewrite length_map, length_xw_plus_b.
  - intros W b n s. unfold AttentionModel.state.
    destruct (AttentionModel.atten feature_size W b x n) as [a|e];
      cbn [bind]; [|discriminate].
    intros H. injection H as <-. unfold weighted_sum.
    now rewrite length_map, length_seq.
  - intros hw hb vf. unfold MixLogisticModel.videofeatures.
    destruct (MixLogisticModel.frames_bool_normalized x) as [w|e];
      cbn [bind]; [|discriminate].
    intros H. injection H as <-. unfold weighted_sum.
    now rewrite length_map, length_seq.
Qed.

Lemma pooling_models_shapes_witness :
  exists p,
    FrameLevelLogisticModel.create_model 1 3 (fun _ _ => 1) (fun _ => 0)
      [[1]; [2]] 2 = Ok p
    /\ length p = 3%nat.
Proof.
  assert (E : exists p,
             FrameLevelLogisticModel.create_model 1 3 (fun _ _ => 1)
               (fun _ => 0) [[1]; [2]] 2 = Ok p).
  { unfold FrameLevelLogisticModel.create_model,
      FrameLevelLogisticModel.avg_pooled.
    rewrite vdiv_ok by (cbn [INR]; lra). cbn [bind]. eexists. reflexivity. }
  destruct E as [p E]. exists p. split; [exact E|].
  exact (proj1 (pooling_models_shapes 1 3 [[1]; [2]]) (fun _ _ => 1)
               (fun _ => 0) 2%nat p E).
Defined.
